(** * CRC32C hardware dispatcher of aws-checksums (x86_64 path)

    A shallow embedding of [source/intel/intrin/crc32c_sse42_asm.c]:
    the scalar CRC32 instructions, the three CLMUL stripe kernels written
    in inline assembly, the AVX512 folding kernel written with intrinsics,
    the lazily initialised capability flags and the dispatcher
    [aws_checksums_crc32c_hw].

    Machine integers are [Z] with their truncation written out.  Memory
    is a list of bytes indexed by address and a [const uint8_t *] is an
    address, so that [input + n] is pointer arithmetic and the low bits of
    [input] are the alignment of the buffer. *)

From Stdlib Require Import ZArith List Bool Lia.
From Stdlib Require Import Strings.Byte.
Import ListNotations.
Local Open Scope Z_scope.

(** ** Machine words *)

Definition mask32 : Z := 0xFFFFFFFF.
Definition mask64 : Z := 0xFFFFFFFFFFFFFFFF.

(** [~x] on a [uint32_t]. *)
Definition not32 (x : Z) : Z := Z.land (Z.lnot x) mask32.

(** ** Memory and pointers

    The bytes of the address space, from address 0 upwards.  Reading
    outside the caller's buffer is undefined behaviour in C; outside the
    list the model reads zero. *)

Definition mem := list byte.

Definition byte_val (b : byte) : Z := Z.of_N (Byte.to_N b).

Definition load8 (m : mem) (a : Z) : Z :=
  if a <? 0 then 0 else byte_val (nth (Z.to_nat a) m x00).

(** Little-endian load of [n] consecutive bytes. *)
Fixpoint load_le (m : mem) (a : Z) (n : nat) : Z :=
  match n with
  | O => 0
  | S k => Z.lor (load8 m a) (Z.shiftl (load_le m (a + 1) k) 8)
  end.

Definition load64 (m : mem) (a : Z) : Z := load_le m a 8.
Definition load128 (m : mem) (a : Z) : Z := load_le m a 16.

(** ** The CRC32 instruction (SSE4.2)

    The instruction accumulates a CRC32C value over the bit-reflected
    Castagnoli polynomial.  [crc_shift1] takes in one bit:
    [(c >> 1) ^ (c & 1 ? POLY_REFLECTED : 0)].  It is written by cases on
    the binary digits of [c], which inspects [c] once; [crc_shift1_eq]
    gives the shift-and-xor form.  [crc32_insn n src dest] is the
    instruction with an [n]-bit source operand; it uses [DEST[31:0]] as
    the running value and leaves the upper half of a 64-bit destination
    zero. *)

Definition CRC32C_POLY : Z := 0x1EDC6F41.

Fixpoint reflect_bits (n : nat) (x acc : Z) : Z :=
  match n with
  | O => acc
  | S k => reflect_bits k (Z.shiftr x 1)
             (Z.lor (Z.shiftl acc 1) (Z.land x 1))
  end.

Definition POLY_REFLECTED : Z := Eval cbv in reflect_bits 32 CRC32C_POLY 0.

Definition crc_shift1 (c : Z) : Z :=
  match c with
  | Z0 => 0
  | Zpos xH => POLY_REFLECTED                         (* 1: shifts to 0 *)
  | Zpos (xO q) => Zpos q                             (* low bit clear *)
  | Zpos (xI q) => Z.lxor (Zpos q) POLY_REFLECTED     (* low bit set *)
  | Zneg p =>
      Z.lxor (Z.shiftr (Zneg p) 1)
             (if Z.odd (Zneg p) then POLY_REFLECTED else 0)
  end.

Definition crc32_insn (nbits : nat) (src dest : Z) : Z :=
  Nat.iter nbits crc_shift1 (Z.lxor (Z.land dest mask32) src).

(** [CRC32B (%[in]), %[crc]] and [crc32q off(%[in]), %reg]. *)
Definition CRC32B (src dest : Z) : Z := crc32_insn 8 src dest.
Definition CRC32Q (src dest : Z) : Z := crc32_insn 64 src dest.

(** ** Carry-less multiplication (PCLMULQDQ)

    The product of two 64-bit operands as polynomials over GF(2). *)

Fixpoint clmul_bits (n : nat) (a b : Z) (i : Z) : Z :=
  match n with
  | O => 0
  | S k => Z.lxor (if Z.testbit b i then Z.shiftl a i else 0)
                  (clmul_bits k a b (i + 1))
  end.

Definition clmul64 (a b : Z) : Z :=
  clmul_bits 64 (Z.land a mask64) (Z.land b mask64) 0.

(** ** The stripe kernels (inline assembly)

    Each kernel keeps three running values in [rcx], [r11] and [r10]
    (crc0, crc1, crc2 in the comments of the source), feeds them with
    [crc32q] from three regions of the block and merges them with the
    [FOLD_K1K2] macro.  Every [let] below is one instruction of the
    source, in program order; [prefetcht0] has no architectural effect
    and is left out. *)

(** The macro [FOLD_K1K2(K1, K2)]: crc0, crc1, crc2 arrive in [rcx],
    [r11], [r10]; the result is left in [ecx]. *)
Definition FOLD_K1K2 (K1 K2 : Z) (rcx r11 r10 : Z) : Z :=
  let r8 := Z.land K1 mask32 in                    (* movl K1, %r8d *)
  let r9 := Z.land K2 mask32 in                    (* movl K2, %r9d *)
  let xmm1 := Z.land rcx mask64 in                 (* movq %rcx, %xmm1 *)
  let xmm3 := r8 in                                (* movq %r8, %xmm3 *)
  let xmm2 := Z.land r11 mask64 in                 (* movq %r11, %xmm2 *)
  let xmm4 := r9 in                                (* movq %r9, %xmm4 *)
  let xmm1 := clmul64 xmm1 xmm3 in                 (* pclmulqdq $0x00, %xmm3, %xmm1 *)
  let xmm2 := clmul64 xmm2 xmm4 in                 (* pclmulqdq $0x00, %xmm4, %xmm2 *)
  let rcx := 0 in                                  (* xor %rcx, %rcx *)
  let r11 := 0 in                                  (* xor %r11, %r11 *)
  let r8 := Z.land xmm1 mask64 in                  (* movq %xmm1, %r8 *)
  let r9 := Z.land xmm2 mask64 in                  (* movq %xmm2, %r9 *)
  let rcx := CRC32Q r8 rcx in                      (* crc32q %r8, %rcx *)
  let r11 := CRC32Q r9 r11 in                      (* crc32q %r9, %r11 *)
  let rcx := Z.land (Z.lxor r10 rcx) mask32 in     (* xor %r10d, %ecx *)
  let rcx := Z.land (Z.lxor r11 rcx) mask32 in     (* xor %r11d, %ecx *)
  rcx.

(** The registers of a kernel: the input pointer, the three running
    values and the loop counter. *)
Record stripe_regs : Type := mk_stripe_regs
  { reg_in : Z; reg_rcx : Z; reg_r11 : Z; reg_r10 : Z; reg_r8d : Z }.

(** [label: body; sub $1, %r8d; jnz label]: the body runs, then again
    while the counter it leaves is not zero. *)
Fixpoint loop_jnz (fuel : nat) (body : stripe_regs -> stripe_regs)
    (s : stripe_regs) : stripe_regs :=
  match fuel with
  | O => s
  | S f => let s' := body s in
           if reg_r8d s' =? 0 then s' else loop_jnz f body s'
  end.

(** The [crc32q] sequence of [s_crc32c_sse42_clmul_256]. *)
Definition stripes_256 (m : mem) (input : Z) (crc : Z) : Z * Z * Z :=
  let rcx := crc in
  let r11 := 0 in                                  (* xor %r11, %r11 *)
  let r10 := 0 in                                  (* xor %r10, %r10 *)
  let rcx := CRC32Q (load64 m (input + 0)) rcx in
  let r11 := CRC32Q (load64 m (input + 88)) r11 in
  let r10 := CRC32Q (load64 m (input + 176)) r10 in
  let rcx := CRC32Q (load64 m (input + 8)) rcx in
  let r11 := CRC32Q (load64 m (input + 96)) r11 in
  let r10 := CRC32Q (load64 m (input + 184)) r10 in
  let rcx := CRC32Q (load64 m (input + 16)) rcx in
  let r11 := CRC32Q (load64 m (input + 104)) r11 in
  let r10 := CRC32Q (load64 m (input + 192)) r10 in
  let rcx := CRC32Q (load64 m (input + 24)) rcx in
  let r11 := CRC32Q (load64 m (input + 112)) r11 in
  let r10 := CRC32Q (load64 m (input + 200)) r10 in
  let rcx := CRC32Q (load64 m (input + 32)) rcx in
  let r11 := CRC32Q (load64 m (input + 120)) r11 in
  let r10 := CRC32Q (load64 m (input + 208)) r10 in
  let rcx := CRC32Q (load64 m (input + 40)) rcx in
  let r11 := CRC32Q (load64 m (input + 128)) r11 in
  let r10 := CRC32Q (load64 m (input + 216)) r10 in
  let rcx := CRC32Q (load64 m (input + 48)) rcx in
  let r11 := CRC32Q (load64 m (input + 136)) r11 in
  let r10 := CRC32Q (load64 m (input + 224)) r10 in
  let rcx := CRC32Q (load64 m (input + 56)) rcx in
  let r11 := CRC32Q (load64 m (input + 144)) r11 in
  let r10 := CRC32Q (load64 m (input + 232)) r10 in
  let rcx := CRC32Q (load64 m (input + 64)) rcx in
  let r11 := CRC32Q (load64 m (input + 152)) r11 in
  let r10 := CRC32Q (load64 m (input + 240)) r10 in
  let rcx := CRC32Q (load64 m (input + 72)) rcx in
  let r11 := CRC32Q (load64 m (input + 160)) r11 in
  let r10 := CRC32Q (load64 m (input + 248)) r10 in
  let rcx := CRC32Q (load64 m (input + 80)) rcx in
  let r11 := CRC32Q (load64 m (input + 168)) r11 in
  (rcx, r11, r10).

Definition s_crc32c_sse42_clmul_256 (m : mem) (input : Z) (crc : Z) : Z :=
  let '(rcx, r11, r10) := stripes_256 m input crc in
  FOLD_K1K2 0x1b3d8f29 0x39d3b296 rcx r11 r10.

(** One pass of [loop_1024]: eight quad words per stripe, then
    [add $64, %[in]] and [sub $1, %r8d]. *)
Definition loop_1024_body (m : mem) (s : stripe_regs) : stripe_regs :=
  let input := reg_in s in
  let rcx := reg_rcx s in
  let r11 := reg_r11 s in
  let r10 := reg_r10 s in
  let r8d := reg_r8d s in
  let rcx := CRC32Q (load64 m (input + 0)) rcx in
  let r11 := CRC32Q (load64 m (input + 344)) r11 in
  let r10 := CRC32Q (load64 m (input + 680)) r10 in
  let rcx := CRC32Q (load64 m (input + 8)) rcx in
  let r11 := CRC32Q (load64 m (input + 352)) r11 in
  let r10 := CRC32Q (load64 m (input + 688)) r10 in
  let rcx := CRC32Q (load64 m (input + 16)) rcx in
  let r11 := CRC32Q (load64 m (input + 360)) r11 in
  let r10 := CRC32Q (load64 m (input + 696)) r10 in
  let rcx := CRC32Q (load64 m (input + 24)) rcx in
  let r11 := CRC32Q (load64 m (input + 368)) r11 in
  let r10 := CRC32Q (load64 m (input + 704)) r10 in
  let rcx := CRC32Q (load64 m (input + 32)) rcx in
  let r11 := CRC32Q (load64 m (input + 376)) r11 in
  let r10 := CRC32Q (load64 m (input + 712)) r10 in
  let rcx := CRC32Q (load64 m (input + 40)) rcx in
  let r11 := CRC32Q (load64 m (input + 384)) r11 in
  let r10 := CRC32Q (load64 m (input + 720)) r10 in
  let rcx := CRC32Q (load64 m (input + 48)) rcx in
  let r11 := CRC32Q (load64 m (input + 392)) r11 in
  let r10 := CRC32Q (load64 m (input + 728)) r10 in
  let rcx := CRC32Q (load64 m (input + 56)) rcx in
  let r11 := CRC32Q (load64 m (input + 400)) r11 in
  let r10 := CRC32Q (load64 m (input + 736)) r10 in
  let input := input + 64 in                       (* add $64, %[in] *)
  let r8d := Z.land (r8d - 1) mask32 in            (* sub $1, %r8d *)
  mk_stripe_regs input rcx r11 r10 r8d.

Definition stripes_1024 (m : mem) (input : Z) (crc : Z) : Z * Z * Z :=
  let rcx := crc in
  let r11 := 0 in                                  (* xor %r11, %r11 *)
  let r10 := 0 in                                  (* xor %r10, %r10 *)
  let r8d := 5 in                                  (* movl $5, %r8d *)
  let s := loop_jnz (Z.to_nat r8d) (loop_1024_body m)
             (mk_stripe_regs input rcx r11 r10 r8d) in
  let input := reg_in s in
  let rcx := reg_rcx s in
  let r11 := reg_r11 s in
  let r10 := reg_r10 s in
  let rcx := CRC32Q (load64 m (input + 0)) rcx in
  let r11 := CRC32Q (load64 m (input + 344)) r11 in
  let r10 := CRC32Q (load64 m (input + 680)) r10 in
  let rcx := CRC32Q (load64 m (input + 8)) rcx in
  let r11 := CRC32Q (load64 m (input + 352)) r11 in
  let r10 := CRC32Q (load64 m (input + 688)) r10 in
  let rcx := CRC32Q (load64 m (input + 16)) rcx in
  let r10 := CRC32Q (load64 m (input + 696)) r10 in
  (rcx, r11, r10).

Definition s_crc32c_sse42_clmul_1024 (m : mem) (input : Z) (crc : Z) : Z :=
  let '(rcx, r11, r10) := stripes_1024 m input crc in
  FOLD_K1K2 0xe417f38a 0x8f158014 rcx r11 r10.

(** One pass of [loop_3072]. *)
Definition loop_3072_body (m : mem) (s : stripe_regs) : stripe_regs :=
  let input := reg_in s in
  let rcx := reg_rcx s in
  let r11 := reg_r11 s in
  let r10 := reg_r10 s in
  let r8d := reg_r8d s in
  let rcx := CRC32Q (load64 m (input + 0)) rcx in
  let r11 := CRC32Q (load64 m (input + 1024)) r11 in
  let r10 := CRC32Q (load64 m (input + 2048)) r10 in
  let rcx := CRC32Q (load64 m (input + 8)) rcx in
  let r11 := CRC32Q (load64 m (input + 1032)) r11 in
  let r10 := CRC32Q (load64 m (input + 2056)) r10 in
  let rcx := CRC32Q (load64 m (input + 16)) rcx in
  let r11 := CRC32Q (load64 m (input + 1040)) r11 in
  let r10 := CRC32Q (load64 m (input + 2064)) r10 in
  let rcx := CRC32Q (load64 m (input + 24)) rcx in
  let r11 := CRC32Q (load64 m (input + 1048)) r11 in
  let r10 := CRC32Q (load64 m (input + 2072)) r10 in
  let rcx := CRC32Q (load64 m (input + 32)) rcx in
  let r11 := CRC32Q (load64 m (input + 1056)) r11 in
  let r10 := CRC32Q (load64 m (input + 2080)) r10 in
  let rcx := CRC32Q (load64 m (input + 40)) rcx in
  let r11 := CRC32Q (load64 m (input + 1064)) r11 in
  let r10 := CRC32Q (load64 m (input + 2088)) r10 in
  let rcx := CRC32Q (load64 m (input + 48)) rcx in
  let r11 := CRC32Q (load64 m (input + 1072)) r11 in
  let r10 := CRC32Q (load64 m (input + 2096)) r10 in
  let rcx := CRC32Q (load64 m (input + 56)) rcx in
  let r11 := CRC32Q (load64 m (input + 1080)) r11 in
  let r10 := CRC32Q (load64 m (input + 2104)) r10 in
  let input := input + 64 in                       (* add $64, %[in] *)
  let r8d := Z.land (r8d - 1) mask32 in            (* sub $1, %r8d *)
  mk_stripe_regs input rcx r11 r10 r8d.

Definition stripes_3072 (m : mem) (input : Z) (crc : Z) : Z * Z * Z :=
  let rcx := crc in
  let r11 := 0 in                                  (* xor %r11, %r11 *)
  let r10 := 0 in                                  (* xor %r10, %r10 *)
  let r8d := 16 in                                 (* movl $16, %r8d *)
  let s := loop_jnz (Z.to_nat r8d) (loop_3072_body m)
             (mk_stripe_regs input rcx r11 r10 r8d) in
  (reg_rcx s, reg_r11 s, reg_r10 s).

Definition s_crc32c_sse42_clmul_3072 (m : mem) (input : Z) (crc : Z) : Z :=
  let '(rcx, r11, r10) := stripes_3072 m input crc in
  FOLD_K1K2 0xa51b6135 0x170076fa rcx r11 r10.

(** ** Sequential scalar processing

    [crc32c_bytes m a n crc]: [n] applications of the byte instruction to
    the bytes at [a], [a+1], ... in order. *)
Fixpoint crc32c_bytes (m : mem) (a : Z) (n : nat) (crc : Z) : Z :=
  match n with
  | O => crc
  | S k => crc32c_bytes m (a + 1) k (CRC32B (load8 m a) crc)
  end.

(** ** Vector intrinsics used by [crc32c_avx512]

    An [__m128i] is a [Z] below [2^128]; an [__m512i] is its four 128-bit
    lanes, lane 0 lowest. *)

Definition lo64 (x : Z) : Z := Z.land x mask64.
Definition hi64 (x : Z) : Z := Z.land (Z.shiftr x 64) mask64.

Record m512i : Type := mk512 { lane0 : Z; lane1 : Z; lane2 : Z; lane3 : Z }.

Definition map512_2 (f : Z -> Z -> Z) (a b : m512i) : m512i :=
  mk512 (f (lane0 a) (lane0 b)) (f (lane1 a) (lane1 b))
        (f (lane2 a) (lane2 b)) (f (lane3 a) (lane3 b)).
Definition map512_3 (f : Z -> Z -> Z -> Z) (a b c : m512i) : m512i :=
  mk512 (f (lane0 a) (lane0 b) (lane0 c)) (f (lane1 a) (lane1 b) (lane1 c))
        (f (lane2 a) (lane2 b) (lane2 c)) (f (lane3 a) (lane3 b) (lane3 c)).

(** Bit [imm8[0]] selects the quad word of [a], bit [imm8[4]] that of [b]. *)
Definition _mm_clmulepi64_si128 (a b : Z) (imm8 : Z) : Z :=
  clmul64 (if Z.testbit imm8 0 then hi64 a else lo64 a)
          (if Z.testbit imm8 4 then hi64 b else lo64 b).

(** Bit [i] of the result is bit [4 a_i + 2 b_i + c_i] of [imm8]. *)
Fixpoint ternary_bits (n : nat) (imm8 a b c : Z) (i : Z) : Z :=
  match n with
  | O => 0
  | S k =>
      let idx := 4 * Z.b2z (Z.testbit a i) + 2 * Z.b2z (Z.testbit b i)
                 + Z.b2z (Z.testbit c i) in
      Z.lor (if Z.testbit imm8 idx then Z.shiftl 1 i else 0)
            (ternary_bits k imm8 a b c (i + 1))
  end.

Definition _mm_ternarylogic_epi64 (a b c : Z) (imm8 : Z) : Z :=
  ternary_bits 128 imm8 a b c 0.

Definition _mm_xor_si128 (a b : Z) : Z := Z.lxor a b.
Definition _mm_and_si128 (a b : Z) : Z := Z.land a b.
Definition _mm_srli_si128 (a : Z) (imm8 : Z) : Z := Z.shiftr a (8 * imm8).
Definition _mm_cvtsi32_si128 (a : Z) : Z := Z.land a mask32.
Definition _mm_extract_epi32 (a : Z) (imm8 : Z) : Z :=
  Z.land (Z.shiftr a (32 * imm8)) mask32.
Definition _mm_setr_epi32 (e0 e1 e2 e3 : Z) : Z :=
  Z.lor (Z.lor (Z.land e0 mask32) (Z.shiftl (Z.land e1 mask32) 32))
        (Z.lor (Z.shiftl (Z.land e2 mask32) 64)
               (Z.shiftl (Z.land e3 mask32) 96)).

(** Loads from a [uint64_t] constant array. *)
Definition u64_at (k : list Z) (i : nat) : Z := Z.land (nth i k 0) mask64.
Definition _mm_loadl_epi64 (k : list Z) : Z := u64_at k 0.
Definition _mm_load_si128 (k : list Z) : Z :=
  Z.lor (u64_at k 0) (Z.shiftl (u64_at k 1) 64).
Definition _mm512_load_si512 (k : list Z) : m512i :=
  mk512 (Z.lor (u64_at k 0) (Z.shiftl (u64_at k 1) 64))
        (Z.lor (u64_at k 2) (Z.shiftl (u64_at k 3) 64))
        (Z.lor (u64_at k 4) (Z.shiftl (u64_at k 5) 64))
        (Z.lor (u64_at k 6) (Z.shiftl (u64_at k 7) 64)).

Definition _mm512_loadu_si512 (m : mem) (a : Z) : m512i :=
  mk512 (load128 m a) (load128 m (a + 16))
        (load128 m (a + 32)) (load128 m (a + 48)).

(** The upper 384 bits are unspecified by the intrinsic; the value comes
    from a register whose upper part the preceding move cleared. *)
Definition _mm512_castsi128_si512 (a : Z) : m512i := mk512 a 0 0 0.

Definition _mm512_xor_si512 : m512i -> m512i -> m512i := map512_2 Z.lxor.
Definition _mm512_clmulepi64_epi128 (a b : m512i) (imm8 : Z) : m512i :=
  map512_2 (fun x y => _mm_clmulepi64_si128 x y imm8) a b.
Definition _mm512_ternarylogic_epi64 (a b c : m512i) (imm8 : Z) : m512i :=
  map512_3 (fun x y z => _mm_ternarylogic_epi64 x y z imm8) a b c.
Definition _mm512_extracti32x4_epi32 (a : m512i) (imm8 : Z) : Z :=
  if imm8 =? 0 then lane0 a else if imm8 =? 1 then lane1 a
  else if imm8 =? 2 then lane2 a else lane3 a.

(** ** Loops *)

(** [while (cond) body], unrolled at most [fuel] times. *)
Fixpoint while {St : Type} (fuel : nat) (cond : St -> bool)
    (body : St -> St) (s : St) : St :=
  match fuel with
  | O => s
  | S f => if cond s then while f cond body (body s) else s
  end.

(** ** The wide-vector kernel [crc32c_avx512] *)

Definition k1k2 : list Z :=
  [0xdcb17aa4; 0xb9e02b86; 0xdcb17aa4; 0xb9e02b86;
   0xdcb17aa4; 0xb9e02b86; 0xdcb17aa4; 0xb9e02b86].
Definition k3k4 : list Z :=
  [0x740eef02; 0x9e4addf8; 0x740eef02; 0x9e4addf8;
   0x740eef02; 0x9e4addf8; 0x740eef02; 0x9e4addf8].
Definition k5k6 : list Z := [0xf20c0dfe; 0x14cd00bd6].
Definition k7k8 : list Z := [0xdd45aab8; 0x000000000].
Definition poly : list Z := [0x105ec76f1; 0xdea713f1].

(** The variables that live across the two loops. *)
Record avx512_vars : Type := mk_avx512_vars
  { v_x1 : m512i; v_x2 : m512i; v_x3 : m512i; v_x4 : m512i;
    v_input : Z; v_length : Z }.

(** Body of [while (length >= 256)]. *)
Definition fold_256_body (m : mem) (x0 : m512i) (s : avx512_vars)
    : avx512_vars :=
  let x1 := v_x1 s in let x2 := v_x2 s in
  let x3 := v_x3 s in let x4 := v_x4 s in
  let input := v_input s in let length := v_length s in
  let x5 := _mm512_clmulepi64_epi128 x1 x0 0x00 in
  let x6 := _mm512_clmulepi64_epi128 x2 x0 0x00 in
  let x7 := _mm512_clmulepi64_epi128 x3 x0 0x00 in
  let x8 := _mm512_clmulepi64_epi128 x4 x0 0x00 in
  let x1 := _mm512_clmulepi64_epi128 x1 x0 0x11 in
  let x2 := _mm512_clmulepi64_epi128 x2 x0 0x11 in
  let x3 := _mm512_clmulepi64_epi128 x3 x0 0x11 in
  let x4 := _mm512_clmulepi64_epi128 x4 x0 0x11 in
  let y5 := _mm512_loadu_si512 m (input + 0x00) in
  let y6 := _mm512_loadu_si512 m (input + 0x40) in
  let y7 := _mm512_loadu_si512 m (input + 0x80) in
  let y8 := _mm512_loadu_si512 m (input + 0xC0) in
  let x1 := _mm512_ternarylogic_epi64 x1 x5 y5 0x96 in
  let x2 := _mm512_ternarylogic_epi64 x2 x6 y6 0x96 in
  let x3 := _mm512_ternarylogic_epi64 x3 x7 y7 0x96 in
  let x4 := _mm512_ternarylogic_epi64 x4 x8 y8 0x96 in
  let input := input + 256 in
  let length := length - 256 in
  mk_avx512_vars x1 x2 x3 x4 input length.

(** Body of [while (length >= 64)]. *)
Definition fold_64_body (m : mem) (x0 : m512i) (s : avx512_vars)
    : avx512_vars :=
  let x1 := v_x1 s in
  let input := v_input s in let length := v_length s in
  let x2 := _mm512_loadu_si512 m input in
  let x5 := _mm512_clmulepi64_epi128 x1 x0 0x00 in
  let x1 := _mm512_clmulepi64_epi128 x1 x0 0x11 in
  let x1 := _mm512_ternarylogic_epi64 x1 x2 x5 0x96 in
  let input := input + 64 in
  let length := length - 64 in
  mk_avx512_vars x1 x2 (v_x3 s) (v_x4 s) input length.

(** The stage "Fold into 512-bits", with [x0] holding [k3k4]. *)
Definition fold_into_512 (x0 x1 x2 x3 x4 : m512i) : m512i :=
  let x5 := _mm512_clmulepi64_epi128 x1 x0 0x00 in
  let x1 := _mm512_clmulepi64_epi128 x1 x0 0x11 in
  let x1 := _mm512_ternarylogic_epi64 x1 x2 x5 0x96 in
  let x5 := _mm512_clmulepi64_epi128 x1 x0 0x00 in
  let x1 := _mm512_clmulepi64_epi128 x1 x0 0x11 in
  let x1 := _mm512_ternarylogic_epi64 x1 x3 x5 0x96 in
  let x5 := _mm512_clmulepi64_epi128 x1 x0 0x00 in
  let x1 := _mm512_clmulepi64_epi128 x1 x0 0x11 in
  let x1 := _mm512_ternarylogic_epi64 x1 x4 x5 0x96 in
  x1.

(** The stages "Fold 512-bits to 384-bits", "Fold 384-bits to 256-bits"
    and "Fold 256-bits to 128-bits", with [a0] holding [k5k6]. *)
Definition fold_512_to_128 (a0 : Z) (x1 : m512i) : Z :=
  let a1 := _mm512_extracti32x4_epi32 x1 0 in
  let a2 := _mm512_extracti32x4_epi32 x1 1 in
  let a3 := _mm_clmulepi64_si128 a1 a0 0x00 in
  let a1 := _mm_clmulepi64_si128 a1 a0 0x11 in
  let a1 := _mm_ternarylogic_epi64 a1 a3 a2 0x96 in
  let a2 := _mm512_extracti32x4_epi32 x1 2 in
  let a3 := _mm_clmulepi64_si128 a1 a0 0x00 in
  let a1 := _mm_clmulepi64_si128 a1 a0 0x11 in
  let a1 := _mm_ternarylogic_epi64 a1 a3 a2 0x96 in
  let a2 := _mm512_extracti32x4_epi32 x1 3 in
  let a3 := _mm_clmulepi64_si128 a1 a0 0x00 in
  let a1 := _mm_clmulepi64_si128 a1 a0 0x11 in
  let a1 := _mm_ternarylogic_epi64 a1 a3 a2 0x96 in
  a1.

(** The stages "Fold 128-bits to 64-bits" and "Barret reduce to
    32-bits" and the extraction of the result, with [a0] still holding
    [k5k6] on entry. *)
Definition reduce_128_to_32 (a0 : Z) (a1 : Z) : Z :=
  let a2 := _mm_clmulepi64_si128 a1 a0 0x10 in
  let a3 := _mm_setr_epi32 (Z.lnot 0) 0 (Z.lnot 0) 0 in
  let a1 := _mm_srli_si128 a1 8 in
  let a1 := _mm_xor_si128 a1 a2 in
  let a0 := _mm_loadl_epi64 k7k8 in
  let a2 := _mm_srli_si128 a1 4 in
  let a1 := _mm_and_si128 a1 a3 in
  let a1 := _mm_clmulepi64_si128 a1 a0 0x00 in
  let a1 := _mm_xor_si128 a1 a2 in
  let a0 := _mm_load_si128 poly in
  let a2 := _mm_and_si128 a1 a3 in
  let a2 := _mm_clmulepi64_si128 a2 a0 0x10 in
  let a2 := _mm_and_si128 a2 a3 in
  let a2 := _mm_clmulepi64_si128 a2 a0 0x00 in
  let a1 := _mm_xor_si128 a1 a2 in
  _mm_extract_epi32 a1 1.

(** The function up to its [return]: the value returned together with
    the final values of its local [input] and [length]. *)
Definition crc32c_avx512_run (m : mem) (input : Z) (length : Z) (crc : Z)
    : Z * Z * Z :=
  (* There's at least one block of 256. *)
  let x1 := _mm512_loadu_si512 m (input + 0x00) in
  let x2 := _mm512_loadu_si512 m (input + 0x40) in
  let x3 := _mm512_loadu_si512 m (input + 0x80) in
  let x4 := _mm512_loadu_si512 m (input + 0xC0) in
  let x1 := _mm512_xor_si512 x1
              (_mm512_castsi128_si512 (_mm_cvtsi32_si128 crc)) in
  let x0 := _mm512_load_si512 k1k2 in
  let input := input + 256 in
  let length := length - 256 in
  (* Parallel fold blocks of 256, if any. *)
  let s := while (Z.to_nat length) (fun s => 256 <=? v_length s)
             (fold_256_body m x0)
             (mk_avx512_vars x1 x2 x3 x4 input length) in
  (* Fold into 512-bits. *)
  let x0 := _mm512_load_si512 k3k4 in
  let x1 := fold_into_512 x0 (v_x1 s) (v_x2 s) (v_x3 s) (v_x4 s) in
  (* Single fold blocks of 64, if any. *)
  let s := while (Z.to_nat (v_length s)) (fun s => 64 <=? v_length s)
             (fold_64_body m x0)
             (mk_avx512_vars x1 (v_x2 s) (v_x3 s) (v_x4 s)
                (v_input s) (v_length s)) in
  (* Fold 512-bits to 128-bits. *)
  let a0 := _mm_load_si128 k5k6 in
  let a1 := fold_512_to_128 a0 (v_x1 s) in
  (* Fold 128-bits to 32-bits and return the crc32. *)
  (reduce_128_to_32 a0 a1, v_input s, v_length s).

Definition crc32c_avx512 (m : mem) (input : Z) (length : Z) (crc : Z) : Z :=
  fst (fst (crc32c_avx512_run m input length crc)).

(** ** The capability flags

    Four file-scope booleans, all [false] when the process starts, and the
    probe [aws_cpu_has_feature] of aws-c-common, taken as a parameter. *)

Inductive aws_cpu_feature_name : Type :=
| AWS_CPU_FEATURE_CLMUL
| AWS_CPU_FEATURE_SSE_4_2
| AWS_CPU_FEATURE_AVX512.

Record globals : Type := mk_globals
  { detection_performed : bool;
    detected_clmul : bool;
    detected_sse42 : bool;
    detected_avx512 : bool }.

Definition initial_globals : globals := mk_globals false false false false.

(** The block guarded by [if (!detection_performed)]. *)
Definition detect (aws_cpu_has_feature : aws_cpu_feature_name -> bool)
    (g : globals) : globals :=
  if negb (detection_performed g) then
    let g := mk_globals (detection_performed g)
               (aws_cpu_has_feature AWS_CPU_FEATURE_CLMUL)
               (detected_sse42 g) (detected_avx512 g) in
    let g := mk_globals (detection_performed g) (detected_clmul g)
               (aws_cpu_has_feature AWS_CPU_FEATURE_SSE_4_2)
               (detected_avx512 g) in
    let g := mk_globals (detection_performed g) (detected_clmul g)
               (detected_sse42 g)
               (aws_cpu_has_feature AWS_CPU_FEATURE_AVX512) in
    mk_globals true (detected_clmul g) (detected_sse42 g) (detected_avx512 g)
  else g.

(** ** The dispatcher *)

(** The variables threaded through the scalar loops and the tiers. *)
Record cursor : Type := mk_cursor
  { c_crc : Z; c_input : Z; c_length : Z }.

(** [while (n-- > 0) { CRC32B (input), crc; input++; }] with [n] kept in
    [c_length]; the counter is one below zero when the loop is left. *)
Definition crc32b_body (m : mem) (s : cursor) : cursor :=
  mk_cursor (CRC32B (load8 m (c_input s)) (c_crc s))
            (c_input s + 1) (c_length s - 1).

Definition crc32b_loop (m : mem) (s : cursor) : cursor :=
  let s := while (Z.to_nat (c_length s)) (fun s => 0 <? c_length s)
             (crc32b_body m) s in
  mk_cursor (c_crc s) (c_input s) (c_length s - 1).

(** [while (length >= 8) { CRC32Q (input), rcx; input += 8; length -= 8; }] *)
Definition crc32q_body (m : mem) (s : cursor) : cursor :=
  mk_cursor (CRC32Q (load64 m (c_input s)) (c_crc s))
            (c_input s + 8) (c_length s - 8).

Definition crc32q_loop (m : mem) (s : cursor) : cursor :=
  while (Z.to_nat (c_length s)) (fun s => 8 <=? c_length s)
    (crc32q_body m) s.

(** [while (length >= N) { crc = kernel(input, crc); input += N; length -= N; }] *)
Definition kernel_body (kernel : mem -> Z -> Z -> Z) (N : Z) (m : mem)
    (s : cursor) : cursor :=
  mk_cursor (kernel m (c_input s) (c_crc s)) (c_input s + N) (c_length s - N).

Definition kernel_loop (kernel : mem -> Z -> Z -> Z) (N : Z) (m : mem)
    (s : cursor) : cursor :=
  while (Z.to_nat (c_length s)) (fun s => N <=? c_length s)
    (kernel_body kernel N m) s.

(** The tier selection; [inl] is the [return crc] inside the AVX512
    branch, [inr] falls through to the scalar loops. *)
Definition tiers (g : globals) (m : mem) (s : cursor) : Z + cursor :=
  if detected_clmul g then
    if detected_avx512 g then
      if 256 <=? c_length s then
        let chunk_size := Z.land (c_length s) (Z.lnot 63) in
        let crc := not32 (crc32c_avx512 m (c_input s) (c_length s) (c_crc s)) in
        let length := c_length s - chunk_size in
        if length =? 0 then inl crc
        else inr (mk_cursor crc (c_input s + chunk_size) length)
      else inr s
    else if detected_sse42 g then
      let s := kernel_loop s_crc32c_sse42_clmul_3072 3072 m s in
      let s := kernel_loop s_crc32c_sse42_clmul_1024 1024 m s in
      let s := kernel_loop s_crc32c_sse42_clmul_256 256 m s in
      inr s
    else inr s
  else inr s.

(** The body of [aws_checksums_crc32c_hw] after the detection block.
    [input] is the address held by the pointer argument.  [AWS_LIKELY]
    and [AWS_UNLIKELY] are branch hints and have the value of their
    argument. *)
Definition crc32c_hw_compute (g : globals) (m : mem) (input : Z)
    (length : Z) (previousCrc32 : Z) : Z :=
  let crc := not32 previousCrc32 in
  if length <? 8 then
    (* while (length-- > 0) ...; return ~crc; *)
    let s := crc32b_loop m (mk_cursor crc input length) in
    not32 (c_crc s)
  else
    let input_alignment := Z.land input 0x7 in
    let leading := Z.land (8 - input_alignment) 0x7 in
    let length := length - leading in
    (* while (leading-- > 0) ... *)
    let s := crc32b_loop m (mk_cursor crc input leading) in
    let s := mk_cursor (c_crc s) (c_input s) length in
    match tiers g m s with
    | inl crc => crc
    | inr s =>
        (* while (length >= 8) ...; while (length-- > 0) ...; return ~crc; *)
        let s := crc32q_loop m s in
        let s := crc32b_loop m s in
        not32 (c_crc s)
    end.

Definition aws_checksums_crc32c_hw
    (aws_cpu_has_feature : aws_cpu_feature_name -> bool) (g : globals)
    (m : mem) (input : Z) (length : Z) (previousCrc32 : Z) : Z * globals :=
  let g := detect aws_cpu_has_feature g in
  (crc32c_hw_compute g m input length previousCrc32, g).

(** ** The software implementation *)

(** Modelled from the spec: [aws_checksums_crc32c_sw] lives in the
    software CRC file of the repository, outside this source file.  The
    spec describes it as the table-driven implementation with the same
    [(buffer, length, previous_crc)] signature computing the standard
    reflected CRC32C over polynomial [0x1EDC6F41], complemented on entry
    and on exit. *)
Definition crc32c_table (i : Z) : Z := Nat.iter 8 crc_shift1 i.

Definition crc32c_sw_step (crc : Z) (b : Z) : Z :=
  Z.lxor (crc32c_table (Z.land (Z.lxor crc b) 0xFF)) (Z.shiftr crc 8).

Fixpoint crc32c_sw_loop (m : mem) (a : Z) (n : nat) (crc : Z) : Z :=
  match n with
  | O => crc
  | S k => crc32c_sw_loop m (a + 1) k (crc32c_sw_step crc (load8 m a))
  end.

Definition aws_checksums_crc32c_sw (m : mem) (input : Z) (length : Z)
    (previousCrc32 : Z) : Z :=
  not32 (crc32c_sw_loop m input (Z.to_nat length) (not32 previousCrc32)).

(** ** Auxiliary notions for the proofs *)

(** Multiplication of a running value by [x^n] modulo the polynomial:
    what [n] further zero bits of input do to it. *)
Definition crc_shift (n : nat) (c : Z) : Z :=
  Nat.iter n crc_shift1 (Z.land c mask32).

(** The value one half of [FOLD_K1K2] computes from one stripe. *)
Definition fold_half (K : Z) (c : Z) : Z :=
  CRC32Q (Z.land (clmul64 (Z.land c mask64) (Z.land K mask32)) mask64) 0.

Definition u32 (x : Z) : Prop := 0 <= x < 2 ^ 32.

(** Checking a property of all [i < n] by running through them. *)
Fixpoint forallb_below (n : nat) (p : nat -> bool) : bool :=
  match n with
  | O => true
  | S k => p k && forallb_below k p
  end.

(** The 32 unit vectors on which a fold constant is compared with a shift. *)
Definition fold_basis_ok (K : Z) (n : nat) : bool :=
  forallb_below 32
    (fun i => fold_half K (2 ^ Z.of_nat i) =? crc_shift n (2 ^ Z.of_nat i)).

(** The number of bytes the alignment prologue takes. *)
Definition leading_bytes (input : Z) : Z := Z.land (8 - Z.land input 0x7) 0x7.

(** [s] is what sequential processing of some prefix of the buffer gives. *)
Definition processed (m : mem) (input0 length0 crc0 : Z) (s : cursor)
    : Prop :=
  exists n : nat,
    Z.of_nat n <= length0
    /\ c_crc s = crc32c_bytes m input0 n crc0
    /\ c_input s = input0 + Z.of_nat n
    /\ c_length s = length0 - Z.of_nat n.

(** The wide-vector tier is entered: both flags set and at least 256
    bytes left after the alignment prologue. *)
Definition avx512_tier_taken (g : globals) (input length : Z) : bool :=
  detected_clmul g && detected_avx512 g && (8 <=? length)
  && (256 <=? length - leading_bytes input).

(** The bytes [data] lie in memory from address [input] on. *)
Definition bytes_at (m : mem) (input : Z) (data : list byte) : Prop :=
  forall i, (i < List.length data)%nat ->
            load8 m (input + Z.of_nat i) = byte_val (nth i data x00).

(** Sequential processing of a list of bytes. *)
Definition crc32c_list (data : list byte) (crc : Z) : Z :=
  fold_left (fun c b => CRC32B (byte_val b) c) data crc.

(** The ASCII bytes of "123456789". *)
Definition check_string : list byte :=
  [x31; x32; x33; x34; x35; x36; x37; x38; x39].

(** A sequence of calls made one after the other in one process; each
    call comes with the answers the probe would give at that moment. *)
Record call : Type := mk_call
  { call_probe : aws_cpu_feature_name -> bool;
    call_mem : mem; call_input : Z; call_length : Z; call_seed : Z }.

Definition do_call (c : call) (g : globals) : Z * globals :=
  aws_checksums_crc32c_hw (call_probe c) g (call_mem c) (call_input c)
    (call_length c) (call_seed c).

Definition globals_after (calls : list call) (g : globals) : globals :=
  fold_left (fun g c => snd (do_call c g)) calls g.

(** The stripe layout as the specification words it: three stripes of
    [N / 3] bytes each, one after the other, the first accumulated from
    the running value and the other two from zero. *)
Definition equal_width_stripes (stripes : mem -> Z -> Z -> Z * Z * Z)
    (N : nat) : Prop :=
  forall m input crc,
    stripes m input crc
    = (crc32c_bytes m input (N / 3) crc,
       crc32c_bytes m (input + Z.of_nat (N / 3)) (N / 3) 0,
       crc32c_bytes m (input + 2 * Z.of_nat (N / 3)) (N / 3) 0).

(** The stripe layout with explicit widths. *)
Definition stripes_of_widths (stripes : mem -> Z -> Z -> Z * Z * Z)
    (w0 w1 w2 : nat) : Prop :=
  forall m input crc,
    stripes m input crc
    = (crc32c_bytes m input w0 crc,
       crc32c_bytes m (input + Z.of_nat w0) w1 0,
       crc32c_bytes m (input + Z.of_nat w0 + Z.of_nat w1) w2 0).

(** A block of 256 bytes counting up from 0. *)
Definition ramp_256 : mem :=
  Eval vm_compute in
    map (fun i => match Byte.of_nat i with Some b => b | None => x00 end)
        (seq 0 256).

(** What a call does when it enters the wide-vector tier: the folder is
    handed the aligned remainder [L] at [p], folds the first [chunk_size]
    bytes into the running value, leaves its own pointer and length at
    [p + chunk_size] and [L - chunk_size], and the dispatcher, which
    computed [chunk_size] from [L] beforehand, either returns or runs the
    scalar loops over the [L - chunk_size] bytes at [p + chunk_size]. *)
Definition wide_vector_accounting (g : globals) (m : mem)
    (input length previousCrc32 : Z) : Prop :=
  let leading := leading_bytes input in
  let crc0 := crc32c_bytes m input (Z.to_nat leading) (not32 previousCrc32) in
  let p := input + leading in
  let L := length - leading in
  let chunk_size := Z.land L (Z.lnot 63) in
  let '(r, input', length') := crc32c_avx512_run m p L crc0 in
  chunk_size = 64 * (L / 64)
  /\ r = crc32c_bytes m p (Z.to_nat chunk_size) crc0
  /\ input' = p + chunk_size
  /\ length' = L - chunk_size
  /\ 0 <= L - chunk_size < 64
  /\ crc32c_hw_compute g m input length previousCrc32
     = (if L - chunk_size =? 0 then not32 r
        else not32 (c_crc (crc32b_loop m (crc32q_loop m
                      (mk_cursor (not32 r) (p + chunk_size)
                                 (L - chunk_size))))))
  /\ c_crc (crc32b_loop m (crc32q_loop m
              (mk_cursor (not32 r) (p + chunk_size) (L - chunk_size))))
     = crc32c_bytes m (p + chunk_size) (Z.to_nat (L - chunk_size)) (not32 r).

Definition all_detected : globals := mk_globals true true true true.

Definition zeros (n : nat) : mem := repeat x00 n.

(** A probe that reports every feature. *)
Definition probe_all : aws_cpu_feature_name -> bool := fun _ => true.

(** Two placements hold the same logical bytes. *)
Definition same_bytes (m1 : mem) (input1 : Z) (m2 : mem) (input2 : Z)
    (n : nat) : Prop :=
  forall i, (i < n)%nat ->
            load8 m1 (input1 + Z.of_nat i) = load8 m2 (input2 + Z.of_nat i).

(** What the sixteen bytes of a 128-bit lane contribute to a CRC that
    starts from zero, and the same for the 64 bytes of a vector and for
    the 256 bytes of four vectors. *)
Definition lane_crc (a : Z) : Z :=
  Nat.iter 128 crc_shift1 (Z.land a (Z.ones 128)).

Definition vec_crc (x : m512i) : Z :=
  Z.lxor (crc_shift 384 (lane_crc (lane0 x)))
    (Z.lxor (crc_shift 256 (lane_crc (lane1 x)))
       (Z.lxor (crc_shift 128 (lane_crc (lane2 x))) (lane_crc (lane3 x)))).

Definition vec4_crc (x1 x2 x3 x4 : m512i) : Z :=
  Z.lxor (crc_shift 1536 (vec_crc x1))
    (Z.lxor (crc_shift 1024 (vec_crc x2))
       (Z.lxor (crc_shift 512 (vec_crc x3)) (vec_crc x4))).

(** One lane folded with the constant pair [k]. *)
Definition fold_lane (k : Z) (a : Z) : Z :=
  Z.lxor (_mm_clmulepi64_si128 a k 0x11) (_mm_clmulepi64_si128 a k 0x00).

(** The 128 unit vectors on which a constant pair is compared with a
    shift by [D] bits, and the final reduction with [lane_crc]. *)
Definition lane_basis_ok (k : Z) (D : nat) : bool :=
  forallb_below 128
    (fun i => lane_crc (fold_lane k (2 ^ Z.of_nat i))
              =? crc_shift D (lane_crc (2 ^ Z.of_nat i))).

Definition reduce_basis_ok : bool :=
  forallb_below 128
    (fun i => reduce_128_to_32 (_mm_load_si128 k5k6) (2 ^ Z.of_nat i)
              =? lane_crc (2 ^ Z.of_nat i)).

Definition linear (f : Z -> Z) : Prop :=
  forall a b, f (Z.lxor a b) = Z.lxor (f a) (f b).

(** The call enters the wide-vector tier and the folder leaves a residue:
    the aligned remainder is at least 256 and not a multiple of 64. *)
Definition wide_vector_residue (g : globals) (input length : Z) : bool :=
  avx512_tier_taken g input length
  && negb ((length - leading_bytes input) mod 64 =? 0).

(** Complementing the running value before [r] more bytes changes the
    result by this amount, for every [r] from 1 to 63. *)
Definition residue_shift_nonzero : bool :=
  forallb_below 63
    (fun r => negb (crc_shift (S r * 8) mask32 =? 0)).

(** * Properties *)

(** ** Bit-level facts *)

Ltac bitwise :=
  apply Z.bits_inj'; intros ?i ?Hi;
  repeat rewrite ?Z.lxor_spec, ?Z.land_spec, ?Z.lor_spec, ?Z.bits_0;
  repeat match goal with
         | |- context [Z.testbit ?a ?n] => destruct (Z.testbit a n)
         end; reflexivity.

Lemma mask32_ones : mask32 = Z.ones 32.
Proof. reflexivity. Qed.

Lemma mask64_ones : mask64 = Z.ones 64.
Proof. reflexivity. Qed.

Lemma land_mask32_u32 x : u32 (Z.land x mask32).
Proof.
  unfold u32. rewrite mask32_ones, Z.land_ones by lia.
  apply Z.mod_pos_bound. lia.
Qed.

Lemma land_mask32_id x : u32 x -> Z.land x mask32 = x.
Proof.
  unfold u32. intros H. rewrite mask32_ones, Z.land_ones by lia.
  apply Z.mod_small. exact H.
Qed.

Lemma land_mask32_idem x : Z.land (Z.land x mask32) mask32 = Z.land x mask32.
Proof. apply land_mask32_id, land_mask32_u32. Qed.

Lemma lxor_bound n a b :
  0 <= n -> 0 <= a < 2 ^ n -> 0 <= b < 2 ^ n -> 0 <= Z.lxor a b < 2 ^ n.
Proof.
  intros Hn Ha Hb.
  assert (Hnn : 0 <= Z.lxor a b) by (apply Z.lxor_nonneg; lia).
  split; [exact Hnn|].
  - destruct (Z.eq_dec (Z.lxor a b) 0) as [E|E].
    + rewrite E. lia.
    + assert (0 < n).
      { destruct (Z.eq_dec n 0) as [->|]; [|lia].
        change (2 ^ 0) with 1 in *.
        assert (a = 0) as -> by lia. assert (b = 0) as -> by lia.
        contradiction E; reflexivity. }
      apply Z.log2_lt_pow2; [lia|].
      pose proof (Z.log2_lxor a b (proj1 Ha) (proj1 Hb)) as Hl.
      assert (Z.log2 a < n).
      { destruct (Z.eq_dec a 0) as [->|]; [simpl; lia|].
        apply Z.log2_lt_pow2; lia. }
      assert (Z.log2 b < n).
      { destruct (Z.eq_dec b 0) as [->|]; [simpl; lia|].
        apply Z.log2_lt_pow2; lia. }
      lia.
Qed.

Lemma lxor_u32 a b : u32 a -> u32 b -> u32 (Z.lxor a b).
Proof. unfold u32. intros. apply lxor_bound; lia. Qed.

Lemma not32_u32 x : u32 (not32 x).
Proof. apply land_mask32_u32. Qed.

Lemma not32_involutive x : u32 x -> not32 (not32 x) = x.
Proof.
  intros H. rewrite <- (land_mask32_id x H) at 2.
  unfold not32. apply Z.bits_inj'. intros i Hi.
  rewrite !Z.land_spec, !Z.lnot_spec, Z.land_spec, Z.lnot_spec by lia.
  destruct (Z.testbit x i), (Z.testbit mask32 i); reflexivity.
Qed.

(** ** Linearity of the CRC step over GF(2) *)

Lemma crc_shift1_eq c :
  crc_shift1 c = Z.lxor (Z.shiftr c 1) (if Z.odd c then POLY_REFLECTED else 0).
Proof. destruct c as [|[q|q|]|p]; reflexivity. Qed.

Lemma crc_shift1_lxor a b :
  crc_shift1 (Z.lxor a b) = Z.lxor (crc_shift1 a) (crc_shift1 b).
Proof.
  rewrite !crc_shift1_eq. rewrite Z.shiftr_lxor.
  rewrite <- !Z.bit0_odd, Z.lxor_spec.
  destruct (Z.testbit a 0), (Z.testbit b 0); simpl xorb; cbv iota; bitwise.
Qed.

Lemma crc_shift1_0 : crc_shift1 0 = 0.
Proof. reflexivity. Qed.

Lemma crc_shift1_bound n c :
  32 <= n -> 0 <= c < 2 ^ (n + 1) -> 0 <= crc_shift1 c < 2 ^ n.
Proof.
  intros Hn Hc. rewrite crc_shift1_eq. apply lxor_bound; [lia| |].
  - rewrite Z.shiftr_div_pow2 by lia. change (2 ^ 1) with 2.
    rewrite Z.pow_add_r in Hc by lia. change (2 ^ 1) with 2 in Hc.
    split; [apply Z.div_pos; lia|apply Z.div_lt_upper_bound; lia].
  - assert (2 ^ 32 <= 2 ^ n) by (apply Z.pow_le_mono_r; lia).
    destruct (Z.odd c); [|lia].
    assert (0 <= POLY_REFLECTED < 2 ^ 32) by (cbv; split; congruence).
    lia.
Qed.

Lemma crc_shift1_u32 c : u32 c -> u32 (crc_shift1 c).
Proof.
  unfold u32. intros H. apply crc_shift1_bound; [lia|].
  change (32 + 1) with 33. assert (2 ^ 32 <= 2 ^ 33) by (cbv; congruence). lia.
Qed.

Lemma iter_shift_lxor n a b :
  Nat.iter n crc_shift1 (Z.lxor a b)
  = Z.lxor (Nat.iter n crc_shift1 a) (Nat.iter n crc_shift1 b).
Proof.
  induction n as [|n IH]; [reflexivity|].
  rewrite !Nat.iter_succ, IH. apply crc_shift1_lxor.
Qed.

Lemma iter_shift_0 n : Nat.iter n crc_shift1 0 = 0.
Proof.
  induction n as [|n IH]; [reflexivity|]. rewrite Nat.iter_succ, IH. reflexivity.
Qed.

Lemma iter_shift_u32 n c : u32 c -> u32 (Nat.iter n crc_shift1 c).
Proof. intros H. apply Nat.iter_invariant; [apply crc_shift1_u32|exact H]. Qed.

(** Shifting out bits that lie above the running value. *)
Lemma crc_shift1_shiftl r k :
  0 <= k -> crc_shift1 (Z.shiftl r (k + 1)) = Z.shiftl r k.
Proof.
  intros Hk. rewrite crc_shift1_eq.
  rewrite <- Z.bit0_odd, Z.shiftl_spec_low by lia.
  rewrite Z.shiftr_shiftl_l by lia. rewrite Z.lxor_0_r. f_equal. lia.
Qed.

Lemma iter_shift_shiftl n r :
  Nat.iter n crc_shift1 (Z.shiftl r (Z.of_nat n)) = r.
Proof.
  induction n as [|n IH].
  - simpl. apply Z.shiftl_0_r.
  - rewrite Nat.iter_succ_r.
    replace (Z.of_nat (S n)) with (Z.of_nat n + 1) by lia.
    rewrite crc_shift1_shiftl by lia. exact IH.
Qed.

(** Unfolding equations, used by rewriting. *)
Lemma crc32_insn_eq n src dest :
  crc32_insn n src dest
  = Nat.iter n crc_shift1 (Z.lxor (Z.land dest mask32) src).
Proof. reflexivity. Qed.

Lemma CRC32B_eq b c : CRC32B b c = crc32_insn 8 b c.
Proof. reflexivity. Qed.

Lemma CRC32Q_eq q c : CRC32Q q c = crc32_insn 64 q c.
Proof. reflexivity. Qed.

Lemma crc_shift_eq n c :
  crc_shift n c = Nat.iter n crc_shift1 (Z.land c mask32).
Proof. reflexivity. Qed.

(** From here on these are handled through their equations only. *)
Global Opaque crc_shift1 crc32_insn CRC32B CRC32Q crc_shift.

Lemma crc_shift_u32 n c : u32 (crc_shift n c).
Proof. rewrite crc_shift_eq. apply iter_shift_u32, land_mask32_u32. Qed.

Lemma crc_shift_lxor n a b :
  crc_shift n (Z.lxor a b) = Z.lxor (crc_shift n a) (crc_shift n b).
Proof.
  rewrite !crc_shift_eq, <- iter_shift_lxor. f_equal. bitwise.
Qed.

Lemma crc_shift_shift k j c :
  crc_shift k (crc_shift j c) = crc_shift (k + j) c.
Proof.
  rewrite (crc_shift_eq k), land_mask32_id by apply crc_shift_u32.
  rewrite !crc_shift_eq. symmetry. apply Nat.iter_add.
Qed.

(** ** Memory reads *)

Lemma testbit_above k b i :
  0 <= b < 2 ^ k -> k <= i -> Z.testbit b i = false.
Proof.
  intros Hb Hi. destruct (Z.eq_dec b 0) as [->|Hne]; [apply Z.bits_0|].
  apply Z.bits_above_log2; [lia|].
  assert (0 <= k) by (destruct (Z.le_gt_cases 0 k); [assumption|];
                      rewrite Z.pow_neg_r in Hb; lia).
  assert (Z.log2 b < k) by (apply Z.log2_lt_pow2; lia). lia.
Qed.

Lemma byte_val_bound b : 0 <= byte_val b < 256.
Proof.
  unfold byte_val. pose proof (Byte.to_N_bounded b). lia.
Qed.

Lemma load8_bound m a : 0 <= load8 m a < 256.
Proof.
  unfold load8. destruct (a <? 0); [lia|apply byte_val_bound].
Qed.

(** ** The CRC32 instruction on bytes and quad words *)

Lemma crc32_insn_u32_byte b c : 0 <= b < 256 -> u32 (CRC32B b c).
Proof.
  intros Hb. rewrite CRC32B_eq, crc32_insn_eq. apply iter_shift_u32.
  apply lxor_u32; [apply land_mask32_u32|]. unfold u32.
  assert (256 < 2 ^ 32) by (cbv; reflexivity). lia.
Qed.

Lemma CRC32B_mask b c : CRC32B b (Z.land c mask32) = CRC32B b c.
Proof.
  rewrite (CRC32B_eq b c), (CRC32B_eq b (Z.land c mask32)).
  rewrite (crc32_insn_eq 8 b c), (crc32_insn_eq 8 b (Z.land c mask32)).
  now rewrite land_mask32_idem.
Qed.

Lemma CRC32B_split b c : CRC32B b c = Z.lxor (crc_shift 8 c) (CRC32B b 0).
Proof.
  rewrite (CRC32B_eq b c), (CRC32B_eq b 0).
  rewrite (crc32_insn_eq 8 b c), (crc32_insn_eq 8 b 0), crc_shift_eq.
  rewrite <- iter_shift_lxor.
  change (Z.land 0 mask32) with 0. now rewrite Z.lxor_0_l.
Qed.

(** Feeding [8 + n] bits is feeding the low byte, then the other [n]. *)
Lemma crc32_insn_low_byte n b rest c :
  0 <= b < 256 ->
  crc32_insn (n + 8) (Z.lor b (Z.shiftl rest 8)) c
  = crc32_insn n rest (CRC32B b c).
Proof.
  intros Hb. rewrite (crc32_insn_eq (n + 8)), Nat.iter_add.
  rewrite <- Z.lxor_lor.
  2:{ apply Z.bits_inj'. intros i Hi. rewrite Z.land_spec, Z.bits_0.
      destruct (Z.lt_ge_cases i 8).
      - rewrite Z.shiftl_spec_low by lia. apply andb_false_r.
      - rewrite (testbit_above 8 b i) by (change (2 ^ 8) with 256; lia).
        reflexivity. }
  rewrite <- Z.lxor_assoc, iter_shift_lxor.
  rewrite <- (crc32_insn_eq 8), <- CRC32B_eq.
  change (Z.shiftl rest 8) with (Z.shiftl rest (Z.of_nat 8)).
  rewrite (iter_shift_shiftl 8 rest).
  rewrite (crc32_insn_eq n).
  rewrite (land_mask32_id (CRC32B b c))
    by (apply crc32_insn_u32_byte; exact Hb).
  reflexivity.
Qed.

Lemma crc32c_bytes_S m a n c :
  crc32c_bytes m a (S n) c = crc32c_bytes m (a + 1) n (CRC32B (load8 m a) c).
Proof. reflexivity. Qed.

Lemma crc32c_bytes_mask m a n c :
  crc32c_bytes m a (S n) (Z.land c mask32) = crc32c_bytes m a (S n) c.
Proof. rewrite !crc32c_bytes_S. now rewrite CRC32B_mask. Qed.

Lemma crc32c_bytes_u32 m a n c : u32 c -> u32 (crc32c_bytes m a n c).
Proof.
  revert a c. induction n as [|n IH]; intros a c H; [exact H|].
  rewrite crc32c_bytes_S. apply IH, crc32_insn_u32_byte, load8_bound.
Qed.

Lemma crc32c_bytes_S_u32 m a n c : u32 (crc32c_bytes m a (S n) c).
Proof.
  rewrite crc32c_bytes_S.
  apply crc32c_bytes_u32, crc32_insn_u32_byte, load8_bound.
Qed.

Lemma load_le_S m a k :
  load_le m a (S k) = Z.lor (load8 m a) (Z.shiftl (load_le m (a + 1) k) 8).
Proof. reflexivity. Qed.

Lemma crc32_insn_load_le m k : forall a c,
  crc32_insn (k * 8) (load_le m a k) c = crc32c_bytes m a k (Z.land c mask32).
Proof.
  induction k as [|k IH]; intros a c.
  - rewrite crc32_insn_eq. change (load_le m a 0) with 0.
    change (0 * 8)%nat with 0%nat. change (crc32c_bytes m a 0 ?x) with x.
    change (Nat.iter 0 crc_shift1 ?x) with x. apply Z.lxor_0_r.
  - replace (S k * 8)%nat with (k * 8 + 8)%nat by lia.
    rewrite load_le_S, crc32c_bytes_S.
    rewrite crc32_insn_low_byte by apply load8_bound.
    rewrite IH, CRC32B_mask.
    rewrite land_mask32_id by (apply crc32_insn_u32_byte, load8_bound).
    reflexivity.
Qed.

(** One quad-word instruction is eight byte instructions. *)
Lemma CRC32Q_load64 m a c : CRC32Q (load64 m a) c = crc32c_bytes m a 8 c.
Proof.
  rewrite CRC32Q_eq.
  rewrite <- (crc32c_bytes_mask m a 7 c).
  exact (crc32_insn_load_le m 8 a c).
Qed.

Lemma crc32c_bytes_app m n1 n2 : forall a c,
  crc32c_bytes m a (n1 + n2) c
  = crc32c_bytes m (a + Z.of_nat n1) n2 (crc32c_bytes m a n1 c).
Proof.
  induction n1 as [|n1 IH]; intros a c.
  - change (Z.of_nat 0) with 0. now rewrite Z.add_0_r.
  - change (S n1 + n2)%nat with (S (n1 + n2)). rewrite !crc32c_bytes_S.
    rewrite IH. f_equal. lia.
Qed.

(** Merging two adjacent runs, with the adjacency as a side condition. *)
Lemma crc32c_bytes_merge m a b n1 n2 c :
  b = a + Z.of_nat n1 ->
  crc32c_bytes m b n2 (crc32c_bytes m a n1 c) = crc32c_bytes m a (n1 + n2) c.
Proof. intros ->. symmetry. apply crc32c_bytes_app. Qed.

(** The running value enters affinely: its contribution is a shift. *)
Lemma crc32c_bytes_affine m n : forall a c,
  u32 c ->
  crc32c_bytes m a n c
  = Z.lxor (crc32c_bytes m a n 0) (crc_shift (n * 8) c).
Proof.
  induction n as [|n IH]; intros a c Hc.
  - rewrite crc_shift_eq. change (0 * 8)%nat with 0%nat.
    change (Nat.iter 0 crc_shift1 ?x) with x.
    change (crc32c_bytes m a 0 ?x) with x.
    now rewrite land_mask32_id.
  - rewrite !crc32c_bytes_S.
    rewrite (IH _ (CRC32B (load8 m a) c))
      by (apply crc32_insn_u32_byte, load8_bound).
    rewrite (IH _ (CRC32B (load8 m a) 0))
      by (apply crc32_insn_u32_byte, load8_bound).
    rewrite (CRC32B_split _ c), crc_shift_lxor, crc_shift_shift.
    replace (S n * 8)%nat with (n * 8 + 8)%nat by lia.
    bitwise.
Qed.

(** ** Carry-less multiplication is linear in its first operand *)

Lemma clmul_bits_lxor n b : forall a a' i,
  clmul_bits n (Z.lxor a a') b i
  = Z.lxor (clmul_bits n a b i) (clmul_bits n a' b i).
Proof.
  induction n as [|n IH]; intros a a' i; [reflexivity|].
  cbn [clmul_bits]. rewrite IH, Z.shiftl_lxor.
  destruct (Z.testbit b i); bitwise.
Qed.

Lemma clmul64_lxor a a' b :
  clmul64 (Z.lxor a a') b = Z.lxor (clmul64 a b) (clmul64 a' b).
Proof.
  unfold clmul64. rewrite <- clmul_bits_lxor. f_equal. bitwise.
Qed.

Global Opaque clmul64.

Lemma crc32_insn_0_lxor n s1 s2 :
  crc32_insn n (Z.lxor s1 s2) 0
  = Z.lxor (crc32_insn n s1 0) (crc32_insn n s2 0).
Proof.
  rewrite (crc32_insn_eq n (Z.lxor s1 s2)), (crc32_insn_eq n s1),
    (crc32_insn_eq n s2).
  change (Z.land 0 mask32) with 0. rewrite !Z.lxor_0_l.
  apply iter_shift_lxor.
Qed.

Lemma fold_half_eq K c :
  fold_half K c
  = crc32_insn 64
      (Z.land (clmul64 (Z.land c mask64) (Z.land K mask32)) mask64) 0.
Proof. reflexivity. Qed.

Lemma fold_half_lxor K a b :
  fold_half K (Z.lxor a b) = Z.lxor (fold_half K a) (fold_half K b).
Proof.
  rewrite (fold_half_eq K a), (fold_half_eq K b), (fold_half_eq K (Z.lxor a b)).
  rewrite <- crc32_insn_0_lxor. f_equal.
  replace (Z.land (Z.lxor a b) mask64)
    with (Z.lxor (Z.land a mask64) (Z.land b mask64)) by bitwise.
  rewrite clmul64_lxor. bitwise.
Qed.

(** ** Linear maps on 32-bit values are determined by the 32 unit vectors *)

Section LinearExt.
Variables f g : Z -> Z.
Hypothesis f_lxor : forall a b, f (Z.lxor a b) = Z.lxor (f a) (f b).
Hypothesis g_lxor : forall a b, g (Z.lxor a b) = Z.lxor (g a) (g b).

Lemma linear_0 (h : Z -> Z) :
  (forall a b, h (Z.lxor a b) = Z.lxor (h a) (h b)) -> h 0 = 0.
Proof.
  intros H. pose proof (H 0 0) as E. rewrite Z.lxor_0_l in E.
  rewrite E at 1. apply Z.lxor_nilpotent.
Qed.

Lemma land_ones_succ x n :
  0 <= n ->
  Z.land x (Z.ones (n + 1))
  = Z.lxor (Z.land x (Z.ones n)) (if Z.testbit x n then 2 ^ n else 0).
Proof.
  intros Hn. apply Z.bits_inj'. intros i Hi.
  rewrite Z.lxor_spec, !Z.land_spec.
  destruct (Z.lt_trichotomy i n) as [Hl|[->|Hg]].
  - rewrite !Z.ones_spec_low by lia.
    destruct (Z.testbit x n);
      [rewrite Z.pow2_bits_false by lia|rewrite Z.bits_0];
      destruct (Z.testbit x i); reflexivity.
  - rewrite Z.ones_spec_low, Z.ones_spec_high by lia.
    destruct (Z.testbit x n) eqn:E;
      [rewrite Z.pow2_bits_true by lia|rewrite Z.bits_0]; reflexivity.
  - rewrite !Z.ones_spec_high by lia.
    destruct (Z.testbit x n);
      [rewrite Z.pow2_bits_false by lia|rewrite Z.bits_0];
      destruct (Z.testbit x i); reflexivity.
Qed.

Lemma linear_ext_ones (n : nat) :
  (forall i, (i < n)%nat -> f (2 ^ Z.of_nat i) = g (2 ^ Z.of_nat i)) ->
  forall x, f (Z.land x (Z.ones (Z.of_nat n)))
            = g (Z.land x (Z.ones (Z.of_nat n))).
Proof.
  induction n as [|n IH]; intros Hb x.
  - change (Z.ones (Z.of_nat 0)) with 0. rewrite Z.land_0_r.
    now rewrite (linear_0 f f_lxor), (linear_0 g g_lxor).
  - replace (Z.of_nat (S n)) with (Z.of_nat n + 1) by lia.
    rewrite land_ones_succ by lia.
    rewrite f_lxor, g_lxor, IH by (intros; apply Hb; lia).
    f_equal. destruct (Z.testbit x (Z.of_nat n)).
    + apply Hb. lia.
    + now rewrite (linear_0 f f_lxor), (linear_0 g g_lxor).
Qed.

Lemma linear_ext_u32 :
  (forall i, (i < 32)%nat -> f (2 ^ Z.of_nat i) = g (2 ^ Z.of_nat i)) ->
  forall x, u32 x -> f x = g x.
Proof.
  intros Hb x Hx. rewrite <- (land_mask32_id x Hx).
  exact (linear_ext_ones 32 Hb x).
Qed.
End LinearExt.

Lemma forallb_below_spec n p :
  forallb_below n p = true -> forall i, (i < n)%nat -> p i = true.
Proof.
  induction n as [|n IH]; intros H i Hi; [lia|].
  cbn [forallb_below] in H. apply andb_prop in H. destruct H as [H1 H2].
  destruct (Nat.eq_dec i n) as [->|]; [exact H1|apply IH; [exact H2|lia]].
Qed.

(** ** The fold constants

    Multiplying a stripe value by [K] and pushing the product through
    [crc32q] shifts the value over the bytes that follow the stripe. *)

Lemma fold_half_shift K n :
  fold_basis_ok K n = true ->
  forall c, u32 c -> fold_half K c = crc_shift n c.
Proof.
  intros H. apply linear_ext_u32.
  - apply fold_half_lxor.
  - apply crc_shift_lxor.
  - intros i Hi. apply Z.eqb_eq.
    exact (forallb_below_spec 32 _ H i Hi).
Qed.

Lemma fold_256_K1 : fold_basis_ok 0x1b3d8f29 ((88 + 80) * 8) = true.
Proof. vm_compute. reflexivity. Qed.

Lemma fold_256_K2 : fold_basis_ok 0x39d3b296 (80 * 8) = true.
Proof. vm_compute. reflexivity. Qed.

Lemma fold_1024_K1 : fold_basis_ok 0xe417f38a ((336 + 344) * 8) = true.
Proof. vm_compute. reflexivity. Qed.

Lemma fold_1024_K2 : fold_basis_ok 0x8f158014 (344 * 8) = true.
Proof. vm_compute. reflexivity. Qed.

Lemma fold_3072_K1 : fold_basis_ok 0xa51b6135 ((1024 + 1024) * 8) = true.
Proof. vm_compute. reflexivity. Qed.

Lemma fold_3072_K2 : fold_basis_ok 0x170076fa (1024 * 8) = true.
Proof. vm_compute. reflexivity. Qed.

Lemma FOLD_K1K2_eq K1 K2 c0 c1 c2 :
  FOLD_K1K2 K1 K2 c0 c1 c2
  = Z.land (Z.lxor (fold_half K2 c1)
                   (Z.land (Z.lxor c2 (fold_half K1 c0)) mask32)) mask32.
Proof. reflexivity. Qed.

(** Three adjacent stripes of [n0], [n1] and [n2] bytes, the first one
    started from the running value and the others from zero, fold to the
    sequential result when the constants match the stripe widths. *)
Lemma fold_three_stripes m a crc n0 n1 n2 K1 K2 c0 c1 c2 :
  u32 crc ->
  fold_basis_ok K1 ((n1 + n2) * 8) = true ->
  fold_basis_ok K2 (n2 * 8) = true ->
  c0 = crc32c_bytes m a n0 crc ->
  c1 = crc32c_bytes m (a + Z.of_nat n0) n1 0 ->
  c2 = crc32c_bytes m (a + Z.of_nat n0 + Z.of_nat n1) n2 0 ->
  FOLD_K1K2 K1 K2 c0 c1 c2 = crc32c_bytes m a (n0 + n1 + n2) crc.
Proof.
  intros Hcrc HK1 HK2 E0 E1 E2.
  assert (H0 : u32 c0) by (subst c0; now apply crc32c_bytes_u32).
  assert (Hz : u32 0) by (unfold u32; lia).
  assert (H1 : u32 c1) by (subst c1; now apply crc32c_bytes_u32).
  assert (H2 : u32 c2) by (subst c2; now apply crc32c_bytes_u32).
  rewrite FOLD_K1K2_eq.
  rewrite (fold_half_shift K1 _ HK1 c0 H0), (fold_half_shift K2 _ HK2 c1 H1).
  rewrite (land_mask32_id (Z.lxor c2 _))
    by (apply lxor_u32; [exact H2|apply crc_shift_u32]).
  rewrite land_mask32_id
    by (apply lxor_u32; [apply crc_shift_u32|];
        apply lxor_u32; [exact H2|apply crc_shift_u32]).
  rewrite 2!crc32c_bytes_app, <- E0.
  rewrite (crc32c_bytes_affine m n2 _ _)
    by (apply crc32c_bytes_u32; exact H0).
  rewrite (crc32c_bytes_affine m n1 _ c0) by exact H0.
  rewrite <- E1.
  replace (a + Z.of_nat (n0 + n1)) with (a + Z.of_nat n0 + Z.of_nat n1) by lia.
  rewrite <- E2.
  rewrite crc_shift_lxor, crc_shift_shift.
  replace (n2 * 8 + n1 * 8)%nat with ((n1 + n2) * 8)%nat by lia.
  bitwise.
Qed.

(** ** The stripes of each kernel *)

Ltac merge_runs :=
  repeat (rewrite crc32c_bytes_merge by lia).

Lemma stripes_256_spec m input crc :
  stripes_256 m input crc
  = (crc32c_bytes m input 88 crc,
     crc32c_bytes m (input + 88) 88 0,
     crc32c_bytes m (input + 176) 80 0).
Proof.
  unfold stripes_256. cbv zeta. rewrite !CRC32Q_load64.
  merge_runs. rewrite Z.add_0_r. reflexivity.
Qed.

(** The counted loop: a body that decrements [r8d] runs as many times as
    the counter says and leaves the loop with the counter at zero. *)
Section CountedLoop.
Variable body : stripe_regs -> stripe_regs.
Hypothesis body_r8d :
  forall s, reg_r8d (body s) = Z.land (reg_r8d s - 1) mask32.

Lemma loop_jnz_iter k : forall s,
  (1 <= k)%nat -> Z.of_nat k < 2 ^ 32 -> reg_r8d s = Z.of_nat k ->
  loop_jnz k body s = Nat.iter k body s
  /\ reg_r8d (loop_jnz k body s) = 0.
Proof.
  induction k as [|k IH]; intros s Hk Hlt Hs; [lia|].
  cbn [loop_jnz].
  assert (Hb : reg_r8d (body s) = Z.of_nat k).
  { rewrite body_r8d, Hs.
    replace (Z.of_nat (S k) - 1) with (Z.of_nat k) by lia.
    apply land_mask32_id. unfold u32. lia. }
  destruct k as [|k].
  - rewrite Hb. cbn [Z.of_nat Z.eqb]. split; [reflexivity|exact Hb].
  - rewrite Hb. destruct (Z.eqb_spec (Z.of_nat (S k)) 0) as [E|_]; [lia|].
    destruct (IH (body s)) as [E1 E2]; [lia|lia|exact Hb|].
    rewrite E1. split; [|rewrite <- E1; exact E2].
    symmetry. apply (Nat.iter_succ_r (S k)).
Qed.
End CountedLoop.

(** A body that feeds 64 bytes to each of three stripes at offsets
    [o0], [o1], [o2] from the moving pointer. *)
Section StripedBody.
Variable m : mem.
Variable body : stripe_regs -> stripe_regs.
Variables o0 o1 o2 : Z.
Hypothesis body_spec : forall s,
  body s = mk_stripe_regs (reg_in s + 64)
             (crc32c_bytes m (reg_in s + o0) 64 (reg_rcx s))
             (crc32c_bytes m (reg_in s + o1) 64 (reg_r11 s))
             (crc32c_bytes m (reg_in s + o2) 64 (reg_r10 s))
             (Z.land (reg_r8d s - 1) mask32).

Lemma striped_iter k : forall s,
  let s' := Nat.iter k body s in
  reg_in s' = reg_in s + 64 * Z.of_nat k
  /\ reg_rcx s' = crc32c_bytes m (reg_in s + o0) (k * 64) (reg_rcx s)
  /\ reg_r11 s' = crc32c_bytes m (reg_in s + o1) (k * 64) (reg_r11 s)
  /\ reg_r10 s' = crc32c_bytes m (reg_in s + o2) (k * 64) (reg_r10 s).
Proof.
  induction k as [|k IH]; intros s; cbv zeta.
  - cbn [Nat.iter nat_rect Nat.mul crc32c_bytes]. repeat split; lia.
  - rewrite Nat.iter_succ_r.
    destruct (IH (body s)) as (E0 & E1 & E2 & E3).
    rewrite E0, E1, E2, E3, body_spec.
    cbn [reg_in reg_rcx reg_r11 reg_r10].
    replace (S k * 64)%nat with (64 + k * 64)%nat by lia.
    rewrite !crc32c_bytes_app.
    repeat split; try lia; f_equal; lia.
Qed.

Lemma striped_r8d s :
  reg_r8d (body s) = Z.land (reg_r8d s - 1) mask32.
Proof. rewrite body_spec. reflexivity. Qed.

Lemma striped_loop k input crc :
  (1 <= k)%nat -> Z.of_nat k < 2 ^ 32 ->
  let s' := loop_jnz k body
              (mk_stripe_regs input crc 0 0 (Z.of_nat k)) in
  reg_in s' = input + 64 * Z.of_nat k
  /\ reg_rcx s' = crc32c_bytes m (input + o0) (k * 64) crc
  /\ reg_r11 s' = crc32c_bytes m (input + o1) (k * 64) 0
  /\ reg_r10 s' = crc32c_bytes m (input + o2) (k * 64) 0
  /\ reg_r8d s' = 0.
Proof.
  intros Hk Hlt. cbv zeta.
  destruct (loop_jnz_iter body striped_r8d k
              (mk_stripe_regs input crc 0 0 (Z.of_nat k)) Hk Hlt eq_refl)
    as [E Hz].
  rewrite Hz, E.
  destruct (striped_iter k (mk_stripe_regs input crc 0 0 (Z.of_nat k)))
    as (E0 & E1 & E2 & E3).
  cbn [reg_in reg_rcx reg_r11 reg_r10] in E0, E1, E2, E3.
  auto.
Qed.
End StripedBody.

Lemma loop_1024_body_spec m s :
  loop_1024_body m s
  = mk_stripe_regs (reg_in s + 64)
      (crc32c_bytes m (reg_in s + 0) 64 (reg_rcx s))
      (crc32c_bytes m (reg_in s + 344) 64 (reg_r11 s))
      (crc32c_bytes m (reg_in s + 680) 64 (reg_r10 s))
      (Z.land (reg_r8d s - 1) mask32).
Proof.
  unfold loop_1024_body. cbv zeta. rewrite !CRC32Q_load64.
  merge_runs. reflexivity.
Qed.

Lemma loop_3072_body_spec m s :
  loop_3072_body m s
  = mk_stripe_regs (reg_in s + 64)
      (crc32c_bytes m (reg_in s + 0) 64 (reg_rcx s))
      (crc32c_bytes m (reg_in s + 1024) 64 (reg_r11 s))
      (crc32c_bytes m (reg_in s + 2048) 64 (reg_r10 s))
      (Z.land (reg_r8d s - 1) mask32).
Proof.
  unfold loop_3072_body. cbv zeta. rewrite !CRC32Q_load64.
  merge_runs. reflexivity.
Qed.

Lemma stripes_1024_spec m input crc :
  stripes_1024 m input crc
  = (crc32c_bytes m input 344 crc,
     crc32c_bytes m (input + 344) 336 0,
     crc32c_bytes m (input + 680) 344 0).
Proof.
  unfold stripes_1024. cbv zeta. change (Z.to_nat 5) with 5%nat.
  destruct (striped_loop m (loop_1024_body m) 0 344 680
              (loop_1024_body_spec m) 5 input crc)
    as (E0 & E1 & E2 & E3 & _); [lia|cbv; reflexivity|].
  change (Z.of_nat 5) with 5 in *.
  rewrite E0, E1, E2, E3. rewrite !CRC32Q_load64.
  merge_runs. rewrite Z.add_0_r. reflexivity.
Qed.

Lemma stripes_3072_spec m input crc :
  stripes_3072 m input crc
  = (crc32c_bytes m input 1024 crc,
     crc32c_bytes m (input + 1024) 1024 0,
     crc32c_bytes m (input + 2048) 1024 0).
Proof.
  unfold stripes_3072. cbv zeta. change (Z.to_nat 16) with 16%nat.
  destruct (striped_loop m (loop_3072_body m) 0 1024 2048
              (loop_3072_body_spec m) 16 input crc)
    as (E0 & E1 & E2 & E3 & _); [lia|cbv; reflexivity|].
  change (Z.of_nat 16) with 16 in *.
  rewrite E1, E2, E3. rewrite Z.add_0_r. reflexivity.
Qed.

(** ** The stripe kernels against sequential processing *)

Lemma kernel_from_stripes m input crc n0 n1 n2 K1 K2 stripes :
  fold_basis_ok K1 ((n1 + n2) * 8) = true ->
  fold_basis_ok K2 (n2 * 8) = true ->
  stripes
  = (crc32c_bytes m input (S n0) crc,
     crc32c_bytes m (input + Z.of_nat (S n0)) n1 0,
     crc32c_bytes m (input + Z.of_nat (S n0) + Z.of_nat n1) n2 0) ->
  (let '(rcx, r11, r10) := stripes in FOLD_K1K2 K1 K2 rcx r11 r10)
  = crc32c_bytes m input (S n0 + n1 + n2) crc.
Proof.
  intros HK1 HK2 ->.
  change (S n0 + n1 + n2)%nat with (S (n0 + n1 + n2)).
  rewrite <- (crc32c_bytes_mask m input n0 crc).
  rewrite <- (crc32c_bytes_mask m input (n0 + n1 + n2) crc).
  apply (fold_three_stripes m input (Z.land crc mask32) (S n0) n1 n2);
    auto using land_mask32_u32.
Qed.

Ltac stripe_addresses :=
  repeat match goal with
         | |- context [Z.of_nat ?n] =>
             let v := eval cbv in (Z.of_nat n) in change (Z.of_nat n) with v
         end;
  rewrite <- ?Z.add_assoc; reflexivity.

Lemma clmul_256_sequential m input crc :
  s_crc32c_sse42_clmul_256 m input crc = crc32c_bytes m input 256 crc.
Proof.
  unfold s_crc32c_sse42_clmul_256.
  apply (kernel_from_stripes m input crc 87 88 80).
  - exact fold_256_K1.
  - exact fold_256_K2.
  - rewrite stripes_256_spec. stripe_addresses.
Qed.

Lemma clmul_1024_sequential m input crc :
  s_crc32c_sse42_clmul_1024 m input crc = crc32c_bytes m input 1024 crc.
Proof.
  unfold s_crc32c_sse42_clmul_1024.
  apply (kernel_from_stripes m input crc 343 336 344).
  - exact fold_1024_K1.
  - exact fold_1024_K2.
  - rewrite stripes_1024_spec. stripe_addresses.
Qed.

Lemma clmul_3072_sequential m input crc :
  s_crc32c_sse42_clmul_3072 m input crc = crc32c_bytes m input 3072 crc.
Proof.
  unfold s_crc32c_sse42_clmul_3072.
  apply (kernel_from_stripes m input crc 1023 1024 1024).
  - exact fold_3072_K1.
  - exact fold_3072_K2.
  - rewrite stripes_3072_spec. stripe_addresses.
Qed.

(** C3. Each stripe kernel returns, for every running value and every
    memory content, exactly what the byte instruction applied in order to
    the N bytes at [input] returns from the same running value; neither
    the argument nor the result is complemented. *)
Theorem stripe_kernels_sequential m input crc :
  s_crc32c_sse42_clmul_256 m input crc = crc32c_bytes m input 256 crc
  /\ s_crc32c_sse42_clmul_1024 m input crc = crc32c_bytes m input 1024 crc
  /\ s_crc32c_sse42_clmul_3072 m input crc = crc32c_bytes m input 3072 crc.
Proof.
  split; [|split].
  - apply clmul_256_sequential.
  - apply clmul_1024_sequential.
  - apply clmul_3072_sequential.
Qed.

(** ** The layout of the stripes *)

(** C9, as stated, fails: the three accumulators of the 256-byte kernel
    are not the values of three stripes of [256 / 3] bytes. *)
Lemma stripes_256_not_equal_width :
  ~ equal_width_stripes stripes_256 256.
Proof.
  intros H. specialize (H ramp_256 0 0).
  vm_compute in H. discriminate H.
Qed.

(** C9, amended.  The stripes are contiguous and their widths are fixed
    per kernel: 88, 88 and 80 bytes of the 256-byte block, 344, 336 and
    344 bytes of the 1024-byte block, and three times 1024 bytes of the
    3072-byte block; only the last kernel has stripes of equal width.
    Each stripe has its own accumulator, the first started from the
    running value and the other two from zero. *)
Theorem stripe_layout :
  stripes_of_widths stripes_256 88 88 80
  /\ stripes_of_widths stripes_1024 344 336 344
  /\ stripes_of_widths stripes_3072 1024 1024 1024
  /\ equal_width_stripes stripes_3072 3072.
Proof.
  repeat split; intros m input crc.
  - rewrite stripes_256_spec. stripe_addresses.
  - rewrite stripes_1024_spec. stripe_addresses.
  - rewrite stripes_3072_spec. stripe_addresses.
  - rewrite stripes_3072_spec.
    change (3072 / 3)%nat with 1024%nat. change (Z.of_nat 1024) with 1024.
    reflexivity.
Qed.

(** ** Byte accounting of the wide-vector tier *)

(** A loop that moves a pointer forward and a length down by [N] per
    round, while at least [N] is left. *)
Section Countdown.
Variable St : Type.
Variables inp len : St -> Z.
Variable body : St -> St.
Variable N : Z.
Hypothesis N_pos : 0 < N.
Hypothesis body_inp : forall s, inp (body s) = inp s + N.
Hypothesis body_len : forall s, len (body s) = len s - N.

Lemma countdown fuel : forall s,
  len s <= Z.of_nat fuel ->
  let s' := while fuel (fun s => N <=? len s) body s in
  let k := Z.of_nat (Z.to_nat (len s / N)) in
  len s' = len s - N * k /\ inp s' = inp s + N * k.
Proof.
  induction fuel as [|fuel IH]; intros s Hs; cbv zeta.
  - assert (c : len s / N <= 0) by (apply Z.div_le_upper_bound; lia).
    cbn [while]. split; lia.
  - cbn [while]. destruct (Z.leb_spec N (len s)) as [Hl|Hl].
    + destruct (IH (body s)) as [E1 E2]; [rewrite body_len; lia|].
      rewrite E1, E2, body_len, body_inp.
      assert (E : len s / N = (len s - N) / N + 1).
      { replace (len s) with ((len s - N) + 1 * N) at 1 by lia.
        apply Z.div_add. lia. }
      assert (0 <= (len s - N) / N) by (apply Z.div_pos; lia).
      rewrite E. split; lia.
    + assert (len s / N <= 0).
      { apply Z.lt_succ_r. apply Z.div_lt_upper_bound; lia. }
      split; lia.
Qed.
End Countdown.

Lemma land_lnot_63 x : Z.land x (Z.lnot 63) = 64 * (x / 64).
Proof.
  change 63 with (Z.ones 6). rewrite <- Z.ldiff_land, Z.ldiff_ones_r by lia.
  rewrite Z.shiftl_mul_pow2, Z.shiftr_div_pow2 by lia.
  change (2 ^ 6) with 64. lia.
Qed.

(** The folder's own [input] and [length] when it returns. *)
Lemma crc32c_avx512_run_accounting m input length crc :
  256 <= length ->
  snd (fst (crc32c_avx512_run m input length crc))
  = input + 64 * (length / 64)
  /\ snd (crc32c_avx512_run m input length crc)
     = length - 64 * (length / 64).
Proof.
  intros Hl. unfold crc32c_avx512_run.
  lazy beta zeta iota delta [fst snd].
  match goal with
  | |- context [while ?f1 ?c1 (fold_256_body m ?x0) ?s1] =>
      set (s256 := while f1 c1 (fold_256_body m x0) s1);
      destruct (countdown _ v_input v_length (fold_256_body m x0) 256
                  ltac:(lia) ltac:(reflexivity) ltac:(reflexivity)
                  f1 s1 ltac:(cbn [v_length]; lia)) as [L1 I1]
  end.
  fold s256 in L1, I1. cbn [v_length v_input] in L1, I1.
  match goal with
  | |- context [while ?f2 ?c2 (fold_64_body m ?x0) ?s2] =>
      set (s64 := while f2 c2 (fold_64_body m x0) s2);
      destruct (countdown _ v_input v_length (fold_64_body m x0) 64
                  ltac:(lia) ltac:(reflexivity) ltac:(reflexivity)
                  f2 s2 ltac:(cbn [v_length]; lia)) as [L2 I2]
  end.
  fold s64 in L2, I2. cbn [v_length v_input] in L2, I2.
  rewrite L2, I2, L1, I1.
  set (k1 := Z.of_nat (Z.to_nat ((length - 256) / 256))).
  assert (Hk1 : k1 = (length - 256) / 256).
  { unfold k1. apply Z2Nat.id. apply Z.div_pos; lia. }
  pose proof (Z.div_mod (length - 256) 256 ltac:(lia)) as D1.
  pose proof (Z.mod_pos_bound (length - 256) 256 ltac:(lia)) as B1.
  rewrite <- Hk1 in D1.
  set (r1 := length - 256 - 256 * k1).
  assert (Hr1 : 0 <= r1 < 256) by (unfold r1; lia).
  set (k2 := Z.of_nat (Z.to_nat (r1 / 64))).
  assert (Hk2 : k2 = r1 / 64).
  { unfold k2. apply Z2Nat.id. apply Z.div_pos; lia. }
  pose proof (Z.div_mod r1 64 ltac:(lia)) as D2.
  pose proof (Z.mod_pos_bound r1 64 ltac:(lia)) as B2.
  rewrite <- Hk2 in D2.
  assert (E : length / 64 = 4 + 4 * k1 + k2).
  { symmetry. apply (Z.div_unique length 64 _ (r1 mod 64)); [lia|].
    unfold r1 in *. lia. }
  rewrite E. unfold r1. split; lia.
Qed.

(** ** The wide-vector kernel against sequential processing *)

Lemma lane_crc_eq a :
  lane_crc a = Nat.iter 128 crc_shift1 (Z.land a (Z.ones 128)).
Proof. reflexivity. Qed.

Global Opaque lane_crc.

Lemma lane_crc_lxor a b :
  lane_crc (Z.lxor a b) = Z.lxor (lane_crc a) (lane_crc b).
Proof.
  rewrite (lane_crc_eq a), (lane_crc_eq b), (lane_crc_eq (Z.lxor a b)).
  rewrite <- iter_shift_lxor. f_equal. bitwise.
Qed.

Lemma lane_crc_mask a : lane_crc (Z.land a (Z.ones 128)) = lane_crc a.
Proof.
  rewrite (lane_crc_eq a), (lane_crc_eq (Z.land a (Z.ones 128))).
  f_equal. bitwise.
Qed.

Lemma lane_crc_0 : lane_crc 0 = 0.
Proof. rewrite lane_crc_eq. apply iter_shift_0. Qed.

Lemma lane_crc_u32 a : u32 (lane_crc a).
Proof.
  rewrite lane_crc_eq.
  assert (H : forall n x, 0 <= x < 2 ^ (32 + Z.of_nat n) ->
                          u32 (Nat.iter n crc_shift1 x)).
  { induction n as [|n IH]; intros x Hx.
    - cbn [Nat.iter nat_rect]. unfold u32.
      replace (32 + Z.of_nat 0) with 32 in Hx by lia. exact Hx.
    - rewrite Nat.iter_succ_r. apply IH.
      apply crc_shift1_bound; [lia|].
      replace (32 + Z.of_nat n + 1) with (32 + Z.of_nat (S n)) by lia.
      exact Hx. }
  apply H. rewrite Z.land_ones by lia.
  pose proof (Z.mod_pos_bound a (2 ^ 128) ltac:(lia)) as B.
  assert (2 ^ 128 <= 2 ^ (32 + Z.of_nat 128))
    by (apply Z.pow_le_mono_r; lia).
  lia.
Qed.

Lemma load_le_bound m n : forall a, 0 <= load_le m a n < 2 ^ (8 * Z.of_nat n).
Proof.
  induction n as [|n IH]; intros a.
  - cbn [load_le]. change (2 ^ (8 * Z.of_nat 0)) with 1. lia.
  - rewrite load_le_S.
    pose proof (load8_bound m a) as Hb. pose proof (IH (a + 1)) as Hr.
    replace (8 * Z.of_nat (S n)) with (8 * Z.of_nat n + 8) by lia.
    rewrite Z.pow_add_r by lia. change (2 ^ 8) with 256.
    rewrite <- Z.lxor_lor.
    2:{ apply Z.bits_inj'. intros i Hi. rewrite Z.land_spec, Z.bits_0.
        destruct (Z.lt_ge_cases i 8).
        - rewrite Z.shiftl_spec_low by lia. apply andb_false_r.
        - rewrite (testbit_above 8 _ i) by (change (2 ^ 8) with 256; lia).
          reflexivity. }
    rewrite <- Z.add_nocarry_lxor.
    2:{ apply Z.bits_inj'. intros i Hi. rewrite Z.land_spec, Z.bits_0.
        destruct (Z.lt_ge_cases i 8).
        - rewrite Z.shiftl_spec_low by lia. apply andb_false_r.
        - rewrite (testbit_above 8 _ i) by (change (2 ^ 8) with 256; lia).
          reflexivity. }
    rewrite Z.shiftl_mul_pow2 by lia. change (2 ^ 8) with 256. nia.
Qed.

Lemma lane_crc_load m a : lane_crc (load128 m a) = crc32c_bytes m a 16 0.
Proof.
  rewrite lane_crc_eq. unfold load128.
  pose proof (load_le_bound m 16 a) as B. change (8 * Z.of_nat 16) with 128 in B.
  rewrite Z.land_ones, Z.mod_small by lia.
  pose proof (crc32_insn_load_le m 16 a 0) as E.
  rewrite crc32_insn_eq in E. change (Z.land 0 mask32) with 0 in E.
  rewrite Z.lxor_0_l in E. exact E.
Qed.

Lemma lane_crc_of_crc crc :
  lane_crc (_mm_cvtsi32_si128 crc) = crc_shift 128 crc.
Proof.
  rewrite lane_crc_eq, crc_shift_eq. unfold _mm_cvtsi32_si128. f_equal.
  rewrite mask32_ones. apply Z.bits_inj'. intros i Hi.
  rewrite !Z.land_spec.
  destruct (Z.lt_ge_cases i 32).
  - rewrite !Z.ones_spec_low by lia. now rewrite !andb_true_r.
  - rewrite (Z.ones_spec_high 32) by lia. now rewrite andb_false_r.
Qed.

(** [_mm_ternarylogic_epi64] with table [0x96] is a three-way XOR of the
    low 128 bits. *)
Lemma ternary_bits_spec imm a b c n : forall i0 j,
  0 <= i0 -> 0 <= j ->
  Z.testbit (ternary_bits n imm a b c i0) j
  = (i0 <=? j) && (j <? i0 + Z.of_nat n)
    && Z.testbit imm (4 * Z.b2z (Z.testbit a j) + 2 * Z.b2z (Z.testbit b j)
                      + Z.b2z (Z.testbit c j)).
Proof.
  induction n as [|n IH]; intros i0 j Hi0 Hj.
  - cbn [ternary_bits]. rewrite Z.bits_0.
    destruct (Z.leb_spec i0 j), (Z.ltb_spec j (i0 + Z.of_nat 0));
      try reflexivity; lia.
  - cbn [ternary_bits]. rewrite Z.lor_spec, IH by lia.
    destruct (Z.eq_dec j i0) as [->|Hne].
    + replace (i0 + 1 <=? i0) with false by (symmetry; apply Z.leb_gt; lia).
      rewrite (proj2 (Z.leb_le i0 i0)) by lia.
      replace (i0 <? i0 + Z.of_nat (S n)) with true
        by (symmetry; apply Z.ltb_lt; lia).
      cbn [andb]. rewrite orb_false_r.
      destruct (Z.testbit imm _); [|apply Z.bits_0].
      rewrite Z.shiftl_1_l. apply Z.pow2_bits_true. lia.
    + replace (Z.testbit (if Z.testbit imm _ then Z.shiftl 1 i0 else 0) j)
        with false.
      2:{ destruct (Z.testbit imm _); [|now rewrite Z.bits_0].
          rewrite Z.shiftl_1_l. symmetry. apply Z.pow2_bits_false. lia. }
      cbn [orb]. f_equal.
      destruct (Z.leb_spec (i0 + 1) j), (Z.leb_spec i0 j),
        (Z.ltb_spec j (i0 + 1 + Z.of_nat n)),
        (Z.ltb_spec j (i0 + Z.of_nat (S n))); try reflexivity; lia.
Qed.

Lemma ternary_0x96 a b c :
  _mm_ternarylogic_epi64 a b c 0x96
  = Z.land (Z.lxor (Z.lxor a b) c) (Z.ones 128).
Proof.
  unfold _mm_ternarylogic_epi64. apply Z.bits_inj'. intros j Hj.
  rewrite ternary_bits_spec by lia.
  rewrite Z.land_spec, !Z.lxor_spec, Z.testbit_ones_nonneg by lia.
  rewrite (proj2 (Z.leb_le 0 j)) by lia. change (0 + Z.of_nat 128) with 128.
  destruct (Z.testbit a j), (Z.testbit b j), (Z.testbit c j),
    (j <? 128); reflexivity.
Qed.

Lemma clmul_imm_00 a b :
  _mm_clmulepi64_si128 a b 0x00 = clmul64 (lo64 a) (lo64 b).
Proof. reflexivity. Qed.

Lemma clmul_imm_11 a b :
  _mm_clmulepi64_si128 a b 0x11 = clmul64 (hi64 a) (hi64 b).
Proof. reflexivity. Qed.

Lemma clmul_imm_10 a b :
  _mm_clmulepi64_si128 a b 0x10 = clmul64 (lo64 a) (hi64 b).
Proof. reflexivity. Qed.

(** Closure properties of GF(2)-linear maps. *)
Lemma linear_id : linear (fun a => a).
Proof. intros a b. reflexivity. Qed.

Lemma linear_lxor f g :
  linear f -> linear g -> linear (fun a => Z.lxor (f a) (g a)).
Proof. intros Hf Hg a b. rewrite Hf, Hg. bitwise. Qed.

Lemma linear_land f k : linear f -> linear (fun a => Z.land (f a) k).
Proof. intros Hf a b. rewrite Hf. bitwise. Qed.

Lemma linear_shiftr f k : linear f -> linear (fun a => Z.shiftr (f a) k).
Proof. intros Hf a b. rewrite Hf. apply Z.shiftr_lxor. Qed.

Lemma linear_clmul f k : linear f -> linear (fun a => clmul64 (f a) k).
Proof. intros Hf a b. rewrite Hf. apply clmul64_lxor. Qed.

Lemma linear_lo64 f : linear f -> linear (fun a => lo64 (f a)).
Proof. intros Hf. unfold lo64. now apply linear_land. Qed.

Lemma linear_hi64 f : linear f -> linear (fun a => hi64 (f a)).
Proof. intros Hf. unfold hi64. now apply linear_land, linear_shiftr. Qed.

Lemma linear_lane_crc f : linear f -> linear (fun a => lane_crc (f a)).
Proof. intros Hf a b. rewrite Hf. apply lane_crc_lxor. Qed.

Lemma linear_crc_shift n f : linear f -> linear (fun a => crc_shift n (f a)).
Proof. intros Hf a b. rewrite Hf. apply crc_shift_lxor. Qed.

Ltac prove_linear :=
  repeat lazymatch goal with
    | |- linear (fun a => a) => apply linear_id
    | |- linear (fun a => clmul64 (@?f a) ?k) => apply (linear_clmul f k)
    | |- linear (fun a => lo64 (@?f a)) => apply (linear_lo64 f)
    | |- linear (fun a => hi64 (@?f a)) => apply (linear_hi64 f)
    | |- linear (fun a => lane_crc (@?f a)) => apply (linear_lane_crc f)
    | |- linear (fun a => crc_shift ?n (@?f a)) =>
        apply (linear_crc_shift n f)
    | |- linear (fun a => Z.lxor (@?f a) (@?g a)) => apply (linear_lxor f g)
    | |- linear (fun a => Z.land (@?f a) ?k) => apply (linear_land f k)
    | |- linear (fun a => Z.shiftr (@?f a) ?k) => apply (linear_shiftr f k)
    end.

Lemma linear_fold_lane k : linear (fold_lane k).
Proof.
  unfold fold_lane.
  change (linear (fun a => Z.lxor (clmul64 (hi64 a) (hi64 k))
                                  (clmul64 (lo64 a) (lo64 k)))).
  prove_linear.
Qed.

Lemma lo64_mask128 a : lo64 (Z.land a (Z.ones 128)) = lo64 a.
Proof.
  unfold lo64. rewrite mask64_ones. apply Z.bits_inj'. intros i Hi.
  rewrite !Z.land_spec.
  destruct (Z.lt_ge_cases i 64).
  - rewrite (Z.ones_spec_low 128) by lia. now rewrite andb_true_r.
  - rewrite (Z.ones_spec_high 64) by lia. now rewrite !andb_false_r.
Qed.

Lemma hi64_mask128 a : hi64 (Z.land a (Z.ones 128)) = hi64 a.
Proof.
  unfold hi64. rewrite mask64_ones. apply Z.bits_inj'. intros i Hi.
  rewrite !Z.land_spec, !Z.shiftr_spec, Z.land_spec by lia.
  destruct (Z.lt_ge_cases i 64).
  - rewrite (Z.ones_spec_low 128) by lia. now rewrite andb_true_r.
  - rewrite (Z.ones_spec_high 64) by lia. now rewrite !andb_false_r.
Qed.

Lemma fold_lane_mask128 k a : fold_lane k (Z.land a (Z.ones 128)) = fold_lane k a.
Proof.
  unfold fold_lane. rewrite !clmul_imm_11, !clmul_imm_00.
  now rewrite lo64_mask128, hi64_mask128.
Qed.

(** A constant pair that passes the check shifts every lane by [D] bits. *)
Lemma fold_lane_shift k D :
  lane_basis_ok k D = true ->
  forall a, lane_crc (fold_lane k a) = crc_shift D (lane_crc a).
Proof.
  intros H a.
  rewrite <- (fold_lane_mask128 k a), <- (lane_crc_mask a).
  assert (Hf : linear (fun a => lane_crc (fold_lane k a)))
    by apply linear_lane_crc, linear_fold_lane.
  assert (Hg : linear (fun a => crc_shift D (lane_crc a)))
    by apply linear_crc_shift, linear_lane_crc, linear_id.
  assert (Hb : forall i, (i < 128)%nat ->
                 lane_crc (fold_lane k (2 ^ Z.of_nat i))
                 = crc_shift D (lane_crc (2 ^ Z.of_nat i))).
  { intros i Hi. apply Z.eqb_eq.
    exact (forallb_below_spec 128 _ H i Hi). }
  exact (linear_ext_ones _ _ Hf Hg 128 Hb a).
Qed.

Lemma k1k2_lane_ok :
  lane_basis_ok (lane0 (_mm512_load_si512 k1k2)) 2048 = true.
Proof. vm_compute. reflexivity. Qed.

Lemma k3k4_lane_ok :
  lane_basis_ok (lane0 (_mm512_load_si512 k3k4)) 512 = true.
Proof. vm_compute. reflexivity. Qed.

Lemma k5k6_lane_ok : lane_basis_ok (_mm_load_si128 k5k6) 128 = true.
Proof. vm_compute. reflexivity. Qed.

Lemma reduce_ok : reduce_basis_ok = true.
Proof. vm_compute. reflexivity. Qed.

(** The last stage computes the CRC of the sixteen bytes it is given. *)
Lemma linear_reduce a0 : linear (fun a => reduce_128_to_32 a0 a).
Proof.
  unfold reduce_128_to_32, _mm_xor_si128, _mm_and_si128, _mm_srli_si128,
    _mm_extract_epi32, _mm_clmulepi64_si128.
  cbv zeta.
  change (Z.testbit 0x10 0) with false. change (Z.testbit 0x10 4) with true.
  change (Z.testbit 0x00 0) with false. change (Z.testbit 0x00 4) with false.
  cbv iota. prove_linear.
Qed.

Lemma reduce_lane_crc t :
  reduce_128_to_32 (_mm_load_si128 k5k6) (Z.land t (Z.ones 128))
  = lane_crc t.
Proof.
  rewrite <- (lane_crc_mask t).
  assert (Hg : linear (fun a => lane_crc a))
    by apply linear_lane_crc, linear_id.
  assert (Hb : forall i, (i < 128)%nat ->
                 reduce_128_to_32 (_mm_load_si128 k5k6) (2 ^ Z.of_nat i)
                 = lane_crc (2 ^ Z.of_nat i)).
  { intros i Hi. apply Z.eqb_eq.
    exact (forallb_below_spec 128 _ reduce_ok i Hi). }
  exact (linear_ext_ones _ _ (linear_reduce _) Hg 128 Hb t).
Qed.

(** One fold of a lane: the old content moves [D] bits ahead and the new
    content is added.  The source passes the three operands of the
    three-way XOR in two different orders. *)
Lemma lane_fold_xor k D a y :
  lane_basis_ok k D = true ->
  lane_crc (_mm_ternarylogic_epi64 (_mm_clmulepi64_si128 a k 0x11)
              (_mm_clmulepi64_si128 a k 0x00) y 0x96)
  = Z.lxor (crc_shift D (lane_crc a)) (lane_crc y).
Proof.
  intros H. rewrite ternary_0x96, lane_crc_mask, lane_crc_lxor.
  fold (fold_lane k a). now rewrite (fold_lane_shift k D H).
Qed.

Lemma lane_fold_xor' k D a y :
  lane_basis_ok k D = true ->
  lane_crc (_mm_ternarylogic_epi64 (_mm_clmulepi64_si128 a k 0x11) y
              (_mm_clmulepi64_si128 a k 0x00) 0x96)
  = Z.lxor (crc_shift D (lane_crc a)) (lane_crc y).
Proof.
  intros H. rewrite <- (lane_fold_xor k D a y H), !ternary_0x96.
  f_equal. f_equal. bitwise.
Qed.

Section VectorFold.
Variables (x0 : m512i) (k : Z) (D : nat).
Hypothesis lanes_x0 :
  lane0 x0 = k /\ lane1 x0 = k /\ lane2 x0 = k /\ lane3 x0 = k.
Hypothesis k_ok : lane_basis_ok k D = true.

Lemma vec_crc_shift_lanes a0 a1 a2 a3 b0 b1 b2 b3 :
  Z.lxor (crc_shift 384 (Z.lxor (crc_shift D a0) b0))
    (Z.lxor (crc_shift 256 (Z.lxor (crc_shift D a1) b1))
       (Z.lxor (crc_shift 128 (Z.lxor (crc_shift D a2) b2))
          (Z.lxor (crc_shift D a3) b3)))
  = Z.lxor
      (crc_shift D
         (Z.lxor (crc_shift 384 a0)
            (Z.lxor (crc_shift 256 a1) (Z.lxor (crc_shift 128 a2) a3))))
      (Z.lxor (crc_shift 384 b0)
         (Z.lxor (crc_shift 256 b1) (Z.lxor (crc_shift 128 b2) b3))).
Proof.
  rewrite !crc_shift_lxor, !crc_shift_shift.
  rewrite (Nat.add_comm D 384), (Nat.add_comm D 256), (Nat.add_comm D 128).
  bitwise.
Qed.

Lemma vec_fold_xor x y :
  vec_crc (_mm512_ternarylogic_epi64 (_mm512_clmulepi64_epi128 x x0 0x11)
             (_mm512_clmulepi64_epi128 x x0 0x00) y 0x96)
  = Z.lxor (crc_shift D (vec_crc x)) (vec_crc y).
Proof.
  destruct lanes_x0 as (E0 & E1 & E2 & E3).
  unfold vec_crc, _mm512_ternarylogic_epi64, _mm512_clmulepi64_epi128,
    map512_3, map512_2.
  cbn [lane0 lane1 lane2 lane3]. rewrite E0, E1, E2, E3.
  rewrite !(lane_fold_xor k D) by exact k_ok.
  apply vec_crc_shift_lanes.
Qed.

Lemma vec_fold_xor' x y :
  vec_crc (_mm512_ternarylogic_epi64 (_mm512_clmulepi64_epi128 x x0 0x11) y
             (_mm512_clmulepi64_epi128 x x0 0x00) 0x96)
  = Z.lxor (crc_shift D (vec_crc x)) (vec_crc y).
Proof.
  destruct lanes_x0 as (E0 & E1 & E2 & E3).
  unfold vec_crc, _mm512_ternarylogic_epi64, _mm512_clmulepi64_epi128,
    map512_3, map512_2.
  cbn [lane0 lane1 lane2 lane3]. rewrite E0, E1, E2, E3.
  rewrite !(lane_fold_xor' k D) by exact k_ok.
  apply vec_crc_shift_lanes.
Qed.
End VectorFold.

Lemma u32_0 : u32 0.
Proof. unfold u32. lia. Qed.

(** Four adjacent runs of [n] bytes, each taken from zero. *)
Lemma four_runs m n s1 s2 s3 a a1 a2 a3 :
  s1 = (n * 8)%nat -> s2 = ((n + n) * 8)%nat ->
  s3 = ((n + (n + n)) * 8)%nat ->
  a1 = a + Z.of_nat n -> a2 = a1 + Z.of_nat n -> a3 = a2 + Z.of_nat n ->
  Z.lxor (crc_shift s3 (crc32c_bytes m a n 0))
    (Z.lxor (crc_shift s2 (crc32c_bytes m a1 n 0))
       (Z.lxor (crc_shift s1 (crc32c_bytes m a2 n 0))
          (crc32c_bytes m a3 n 0)))
  = crc32c_bytes m a (n + (n + (n + n))) 0.
Proof.
  intros -> -> -> -> -> ->.
  rewrite (crc32c_bytes_app m n (n + (n + n))).
  rewrite (crc32c_bytes_affine m (n + (n + n)) _ (crc32c_bytes m a n 0))
    by apply crc32c_bytes_u32, u32_0.
  rewrite (crc32c_bytes_app m n (n + n)).
  rewrite (crc32c_bytes_affine m (n + n) _ (crc32c_bytes m _ n 0))
    by apply crc32c_bytes_u32, u32_0.
  rewrite (crc32c_bytes_app m n n).
  rewrite (crc32c_bytes_affine m n _ (crc32c_bytes m _ n 0))
    by apply crc32c_bytes_u32, u32_0.
  bitwise.
Qed.

(** The 64 bytes a vector was loaded from. *)
Lemma vec_crc_load m a :
  vec_crc (_mm512_loadu_si512 m a) = crc32c_bytes m a 64 0.
Proof.
  unfold vec_crc, _mm512_loadu_si512. cbn [lane0 lane1 lane2 lane3].
  rewrite !lane_crc_load.
  apply (four_runs m 16 128 256 384); try reflexivity; lia.
Qed.

(** The 256 bytes four vectors were loaded from. *)
Lemma vec4_crc_load m a :
  vec4_crc (_mm512_loadu_si512 m (a + 0x00)) (_mm512_loadu_si512 m (a + 0x40))
    (_mm512_loadu_si512 m (a + 0x80)) (_mm512_loadu_si512 m (a + 0xC0))
  = crc32c_bytes m a 256 0.
Proof.
  unfold vec4_crc. rewrite !vec_crc_load, Z.add_0_r.
  apply (four_runs m 64 512 1024 1536); try reflexivity; lia.
Qed.

Lemma while_invariant {St : Type} (I : St -> Prop) cond body :
  (forall s, cond s = true -> I s -> I (body s)) ->
  forall fuel s, I s -> I (while fuel cond body s).
Proof.
  intros Hstep. induction fuel as [|fuel IH]; intros s Hs; [exact Hs|].
  cbn [while]. destruct (cond s) eqn:E; [|exact Hs].
  apply IH, Hstep; assumption.
Qed.

Lemma crc_shift_mask n c : crc_shift n (Z.land c mask32) = crc_shift n c.
Proof. rewrite !crc_shift_eq. now rewrite land_mask32_idem. Qed.

Lemma k1k2_lanes :
  let x0 := _mm512_load_si512 k1k2 in
  lane0 x0 = lane0 x0 /\ lane1 x0 = lane0 x0
  /\ lane2 x0 = lane0 x0 /\ lane3 x0 = lane0 x0.
Proof. repeat split; reflexivity. Qed.

Lemma k3k4_lanes :
  let x0 := _mm512_load_si512 k3k4 in
  lane0 x0 = lane0 x0 /\ lane1 x0 = lane0 x0
  /\ lane2 x0 = lane0 x0 /\ lane3 x0 = lane0 x0.
Proof. repeat split; reflexivity. Qed.

Lemma vec4_crc_shift D a1 a2 a3 a4 b1 b2 b3 b4 :
  Z.lxor (crc_shift 1536 (Z.lxor (crc_shift D a1) b1))
    (Z.lxor (crc_shift 1024 (Z.lxor (crc_shift D a2) b2))
       (Z.lxor (crc_shift 512 (Z.lxor (crc_shift D a3) b3))
          (Z.lxor (crc_shift D a4) b4)))
  = Z.lxor
      (crc_shift D
         (Z.lxor (crc_shift 1536 a1)
            (Z.lxor (crc_shift 1024 a2) (Z.lxor (crc_shift 512 a3) a4))))
      (Z.lxor (crc_shift 1536 b1)
         (Z.lxor (crc_shift 1024 b2) (Z.lxor (crc_shift 512 b3) b4))).
Proof.
  rewrite !crc_shift_lxor, !crc_shift_shift.
  rewrite (Nat.add_comm D 1536), (Nat.add_comm D 1024), (Nat.add_comm D 512).
  bitwise.
Qed.

Section WideVector.
Variables (m : mem) (p : Z) (c : Z).
Hypothesis c_u32 : u32 c.

(** What the four accumulators, and later the single one, stand for. *)
Let inv4 (s : avx512_vars) : Prop :=
  exists n : nat,
    vec4_crc (v_x1 s) (v_x2 s) (v_x3 s) (v_x4 s) = crc32c_bytes m p n c
    /\ v_input s = p + Z.of_nat n.

Let inv1 (s : avx512_vars) : Prop :=
  exists n : nat,
    vec_crc (v_x1 s) = crc32c_bytes m p n c
    /\ v_input s = p + Z.of_nat n.

Lemma first_block_inv4 length :
  inv4 (mk_avx512_vars
          (_mm512_xor_si512 (_mm512_loadu_si512 m (p + 0x00))
             (_mm512_castsi128_si512 (_mm_cvtsi32_si128 c)))
          (_mm512_loadu_si512 m (p + 0x40))
          (_mm512_loadu_si512 m (p + 0x80))
          (_mm512_loadu_si512 m (p + 0xC0))
          (p + 256) length).
Proof.
  exists 256%nat. cbn [v_x1 v_x2 v_x3 v_x4 v_input]. split; [|reflexivity].
  rewrite (crc32c_bytes_affine m 256 p c c_u32).
  rewrite <- vec4_crc_load.
  unfold vec4_crc at 1.
  assert (E : vec_crc (_mm512_xor_si512 (_mm512_loadu_si512 m (p + 0))
                         (_mm512_castsi128_si512 (_mm_cvtsi32_si128 c)))
              = Z.lxor (vec_crc (_mm512_loadu_si512 m (p + 0)))
                       (crc_shift 512 c)).
  { unfold vec_crc, _mm512_xor_si512, _mm512_castsi128_si512, map512_2.
    cbn [lane0 lane1 lane2 lane3].
    rewrite !Z.lxor_0_r, lane_crc_lxor, lane_crc_of_crc.
    rewrite crc_shift_lxor, crc_shift_shift.
    change (384 + 128)%nat with 512%nat. bitwise. }
  rewrite E. unfold vec4_crc.
  rewrite crc_shift_lxor, crc_shift_shift.
  change (1536 + 512)%nat with (256 * 8)%nat. bitwise.
Qed.

Lemma fold_256_body_inv4 s :
  inv4 s -> inv4 (fold_256_body m (_mm512_load_si512 k1k2) s).
Proof.
  intros (n & E & Ei). exists (n + 256)%nat.
  unfold fold_256_body. cbv zeta. cbn [v_x1 v_x2 v_x3 v_x4 v_input].
  split; [|lia].
  unfold vec4_crc.
  rewrite !(vec_fold_xor _ _ 2048 k1k2_lanes k1k2_lane_ok).
  rewrite vec4_crc_shift.
  fold (vec4_crc (v_x1 s) (v_x2 s) (v_x3 s) (v_x4 s)).
  fold (vec4_crc (_mm512_loadu_si512 m (v_input s + 0))
          (_mm512_loadu_si512 m (v_input s + 64))
          (_mm512_loadu_si512 m (v_input s + 128))
          (_mm512_loadu_si512 m (v_input s + 192))).
  rewrite (vec4_crc_load m (v_input s)), E, Ei.
  rewrite (crc32c_bytes_app m n 256).
  rewrite (crc32c_bytes_affine m 256 _ (crc32c_bytes m p n c))
    by (apply crc32c_bytes_u32, c_u32).
  apply Z.lxor_comm.
Qed.

Lemma fold_into_512_crc x1 x2 x3 x4 :
  vec_crc (fold_into_512 (_mm512_load_si512 k3k4) x1 x2 x3 x4)
  = vec4_crc x1 x2 x3 x4.
Proof.
  unfold fold_into_512. cbv zeta.
  rewrite !(vec_fold_xor' _ _ 512 k3k4_lanes k3k4_lane_ok).
  unfold vec4_crc. rewrite !crc_shift_lxor, !crc_shift_shift.
  change (512 + 512)%nat with 1024%nat.
  change (1024 + 512)%nat with 1536%nat.
  bitwise.
Qed.

Lemma fold_64_body_inv1 s :
  inv1 s -> inv1 (fold_64_body m (_mm512_load_si512 k3k4) s).
Proof.
  intros (n & E & Ei). exists (n + 64)%nat.
  unfold fold_64_body. cbv zeta. cbn [v_x1 v_input].
  split; [|lia].
  rewrite (vec_fold_xor' _ _ 512 k3k4_lanes k3k4_lane_ok).
  rewrite vec_crc_load, E, Ei.
  rewrite (crc32c_bytes_app m n 64).
  rewrite (crc32c_bytes_affine m 64 _ (crc32c_bytes m p n c))
    by (apply crc32c_bytes_u32, c_u32).
  apply Z.lxor_comm.
Qed.

Lemma reduce_fold_512_to_128 x :
  reduce_128_to_32 (_mm_load_si128 k5k6)
    (fold_512_to_128 (_mm_load_si128 k5k6) x)
  = vec_crc x.
Proof.
  unfold fold_512_to_128. cbv zeta.
  change (_mm512_extracti32x4_epi32 x 0) with (lane0 x).
  change (_mm512_extracti32x4_epi32 x 1) with (lane1 x).
  change (_mm512_extracti32x4_epi32 x 2) with (lane2 x).
  change (_mm512_extracti32x4_epi32 x 3) with (lane3 x).
  match goal with
  | |- reduce_128_to_32 _ (_mm_ternarylogic_epi64 ?h ?l ?y 0x96) = _ =>
      rewrite (ternary_0x96 h l y), reduce_lane_crc,
        <- lane_crc_mask, <- (ternary_0x96 h l y)
  end.
  rewrite !(lane_fold_xor _ 128 _ _ k5k6_lane_ok).
  unfold vec_crc. rewrite !crc_shift_lxor, !crc_shift_shift.
  change (128 + 128)%nat with 256%nat.
  change (256 + 128)%nat with 384%nat.
  bitwise.
Qed.

(** The folder returns the sequential CRC of the bytes it consumes. *)
Lemma crc32c_avx512_run_sequential length :
  256 <= length ->
  fst (fst (crc32c_avx512_run m p length c))
  = crc32c_bytes m p (Z.to_nat (64 * (length / 64))) c.
Proof.
  intros Hl.
  destruct (crc32c_avx512_run_accounting m p length c Hl) as [EI _].
  revert EI. unfold crc32c_avx512_run. cbv zeta. cbn [fst snd].
  set (s1 := while _ _ (fold_256_body m _) _).
  assert (H1 : inv4 s1).
  { apply while_invariant; [intros s _; apply fold_256_body_inv4|].
    apply first_block_inv4. }
  set (x1 := fold_into_512 _ _ _ _ _).
  set (s2 := while _ _ (fold_64_body m _) _).
  assert (H2 : inv1 s2).
  { apply while_invariant; [intros s _; apply fold_64_body_inv1|].
    destruct H1 as (n & E & Ei). exists n. cbn [v_x1 v_input].
    subst x1. rewrite fold_into_512_crc. split; assumption. }
  intros EI. rewrite reduce_fold_512_to_128.
  destruct H2 as (n & E & Ei). rewrite E. f_equal. lia.
Qed.
End WideVector.

(** For every running value, memory and length of at least 256 the
    wide-vector kernel returns what sequential processing of the first
    [length] rounded down to a multiple of 64 bytes returns. *)
Lemma crc32c_avx512_sequential m p length crc :
  256 <= length ->
  crc32c_avx512 m p length crc
  = crc32c_bytes m p (Z.to_nat (64 * (length / 64))) crc.
Proof.
  intros Hl. unfold crc32c_avx512.
  assert (E : crc32c_avx512_run m p length crc
              = crc32c_avx512_run m p length (Z.land crc mask32)).
  { unfold crc32c_avx512_run, _mm_cvtsi32_si128.
    now rewrite land_mask32_idem. }
  rewrite E, (crc32c_avx512_run_sequential m p _ (land_mask32_u32 crc) _ Hl).
  assert (Hn : exists n, Z.to_nat (64 * (length / 64)) = S n).
  { assert (4 <= length / 64) by (apply Z.div_le_lower_bound; lia).
    exists (Z.to_nat (64 * (length / 64)) - 1)%nat. lia. }
  destruct Hn as [n ->]. apply crc32c_bytes_mask.
Qed.

(** ** The scalar loops and the block loops of the dispatcher *)

Lemma cursor_eta s : s = mk_cursor (c_crc s) (c_input s) (c_length s).
Proof. destruct s; reflexivity. Qed.

(** The byte loop runs [max length 0] times. *)
Lemma crc32b_while m fuel : forall s,
  Z.to_nat (c_length s) = fuel ->
  while fuel (fun s => 0 <? c_length s) (crc32b_body m) s
  = mk_cursor (crc32c_bytes m (c_input s) fuel (c_crc s))
              (c_input s + Z.of_nat fuel) (c_length s - Z.of_nat fuel).
Proof.
  induction fuel as [|fuel IH]; intros s Hs.
  - cbn [while crc32c_bytes]. rewrite (cursor_eta s) at 1. f_equal; lia.
  - cbn [while]. destruct (Z.ltb_spec 0 (c_length s)) as [Hl|Hl]; [|lia].
    rewrite IH by (cbn [crc32b_body c_length]; lia).
    cbn [crc32b_body c_crc c_input c_length crc32c_bytes]. f_equal; lia.
Qed.

Lemma crc32b_loop_spec m s :
  crc32b_loop m s
  = mk_cursor (crc32c_bytes m (c_input s) (Z.to_nat (c_length s)) (c_crc s))
              (c_input s + Z.of_nat (Z.to_nat (c_length s)))
              (c_length s - Z.of_nat (Z.to_nat (c_length s)) - 1).
Proof.
  unfold crc32b_loop. rewrite (crc32b_while m _ s eq_refl). reflexivity.
Qed.

(** The byte loop is left because its test failed, not for lack of fuel. *)
Lemma crc32b_loop_exit m s :
  let s' := while (Z.to_nat (c_length s)) (fun s => 0 <? c_length s)
              (crc32b_body m) s in
  (0 <? c_length s') = false.
Proof.
  cbv zeta. rewrite (crc32b_while m _ s eq_refl). cbn [c_length].
  apply Z.ltb_ge. lia.
Qed.

(** A loop that hands blocks of [N] bytes to a step equal to sequential
    processing. *)
Section BlockLoop.
Variable m : mem.
Variable step : mem -> Z -> Z -> Z.
Variable Nn : nat.
Hypothesis Nn_pos : (0 < Nn)%nat.
Hypothesis step_spec :
  forall input crc, step m input crc = crc32c_bytes m input Nn crc.

Let N : Z := Z.of_nat Nn.
Let cond (s : cursor) : bool := N <=? c_length s.

Lemma block_while fuel : forall s,
  c_length s <= Z.of_nat fuel ->
  let k := Z.to_nat (c_length s / N) in
  while fuel cond (kernel_body step N m) s
  = mk_cursor (crc32c_bytes m (c_input s) (k * Nn) (c_crc s))
              (c_input s + N * Z.of_nat k)
              (c_length s - N * Z.of_nat k).
Proof.
  assert (HN : 0 < N) by (unfold N; lia).
  induction fuel as [|fuel IH]; intros s Hs; cbv zeta.
  - assert (E : Z.to_nat (c_length s / N) = 0%nat).
    { assert (c_length s / N <= 0) by (apply Z.div_le_upper_bound; lia). lia. }
    rewrite E. cbn [while Nat.mul crc32c_bytes].
    rewrite (cursor_eta s) at 1. f_equal; lia.
  - cbn [while]. unfold cond at 1.
    destruct (Z.leb_spec N (c_length s)) as [Hl|Hl].
    + rewrite IH by (cbn [kernel_body c_length]; lia).
      cbn [kernel_body c_crc c_input c_length]. rewrite step_spec.
      assert (E : c_length s / N = (c_length s - N) / N + 1).
      { replace (c_length s) with ((c_length s - N) + 1 * N) at 1 by lia.
        apply Z.div_add. lia. }
      assert (0 <= (c_length s - N) / N) by (apply Z.div_pos; lia).
      rewrite E.
      replace (Z.to_nat ((c_length s - N) / N + 1))
        with (S (Z.to_nat ((c_length s - N) / N))) by lia.
      rewrite crc32c_bytes_merge by (unfold N; lia).
      f_equal; lia.
    + assert (E : Z.to_nat (c_length s / N) = 0%nat).
      { assert (c_length s / N <= 0).
        { apply Z.lt_succ_r. apply Z.div_lt_upper_bound; lia. }
        lia. }
      rewrite E. cbn [Nat.mul crc32c_bytes].
      rewrite (cursor_eta s) at 1. f_equal; lia.
Qed.

Lemma block_loop_spec s :
  let k := Z.to_nat (c_length s / N) in
  kernel_loop step N m s
  = mk_cursor (crc32c_bytes m (c_input s) (k * Nn) (c_crc s))
              (c_input s + N * Z.of_nat k)
              (c_length s - N * Z.of_nat k).
Proof. unfold kernel_loop. apply block_while. lia. Qed.
End BlockLoop.

(** A block loop is left because fewer than [N] bytes remain. *)
Lemma kernel_loop_exit m step Nn s :
  (0 < Nn)%nat ->
  (forall input crc, step m input crc = crc32c_bytes m input Nn crc) ->
  (Z.of_nat Nn <=? c_length (kernel_loop step (Z.of_nat Nn) m s)) = false.
Proof.
  intros HN Hstep. rewrite (block_loop_spec m step Nn HN Hstep s).
  cbv zeta. cbn [c_length]. apply Z.leb_gt.
  destruct (Z.lt_ge_cases (c_length s) 0) as [Hneg|Hpos].
  - assert (c_length s / Z.of_nat Nn < 0)
      by (apply Z.div_lt_upper_bound; lia).
    lia.
  - rewrite Z2Nat.id by (apply Z.div_pos; lia).
    pose proof (Z.div_mod (c_length s) (Z.of_nat Nn) ltac:(lia)).
    pose proof (Z.mod_pos_bound (c_length s) (Z.of_nat Nn) ltac:(lia)).
    lia.
Qed.

Lemma crc32q_loop_spec m s :
  let k := Z.to_nat (c_length s / 8) in
  crc32q_loop m s
  = mk_cursor (crc32c_bytes m (c_input s) (k * 8) (c_crc s))
              (c_input s + 8 * Z.of_nat k)
              (c_length s - 8 * Z.of_nat k).
Proof.
  apply (block_loop_spec m (fun m a c => CRC32Q (load64 m a) c) 8);
    [lia|intros; apply CRC32Q_load64].
Qed.

(** ** The dispatcher away from the wide-vector tier *)

Lemma leading_bytes_range input : 0 <= leading_bytes input <= 7.
Proof.
  unfold leading_bytes. change 0x7 with (Z.ones 3).
  rewrite (Z.land_ones (8 - _)) by lia.
  pose proof (Z.mod_pos_bound (8 - Z.land input (Z.ones 3)) (2 ^ 3)).
  change (2 ^ 3) with 8 in *. change (Z.ones 3) with 7 in *. lia.
Qed.

Section Processed.
Variables (m : mem) (input0 length0 crc0 : Z).

Lemma processed_block step Nn s :
  (0 < Nn)%nat ->
  (forall input crc, step m input crc = crc32c_bytes m input Nn crc) ->
  processed m input0 length0 crc0 s ->
  processed m input0 length0 crc0 (kernel_loop step (Z.of_nat Nn) m s).
Proof.
  intros HN Hstep (n & Hn & Ec & Ei & El).
  rewrite (block_loop_spec m step Nn HN Hstep s). cbv zeta.
  set (k := Z.to_nat (c_length s / Z.of_nat Nn)).
  assert (Hk : Z.of_nat Nn * Z.of_nat k <= c_length s).
  { unfold k. rewrite Z2Nat.id by (apply Z.div_pos; lia).
    apply Z.mul_div_le. lia. }
  exists (n + k * Nn)%nat. cbn [c_crc c_input c_length].
  rewrite Ec, Ei, El in *.
  rewrite crc32c_bytes_merge by reflexivity.
  repeat split; lia.
Qed.

Lemma processed_finish s :
  processed m input0 length0 crc0 s ->
  c_crc (crc32b_loop m s)
  = crc32c_bytes m input0 (Z.to_nat length0) crc0.
Proof.
  intros (n & Hn & Ec & Ei & El).
  rewrite crc32b_loop_spec. cbn [c_crc].
  rewrite Ec, Ei, crc32c_bytes_merge by reflexivity.
  f_equal. lia.
Qed.
End Processed.

Lemma processed_tiers g m input0 length0 crc0 s :
  detected_clmul g && detected_avx512 g && (256 <=? c_length s) = false ->
  processed m input0 length0 crc0 s ->
  exists s', tiers g m s = inr s' /\ processed m input0 length0 crc0 s'.
Proof.
  intros Hg Hs. unfold tiers.
  destruct (detected_clmul g); [|eauto].
  destruct (detected_avx512 g).
  - cbn [andb] in Hg. rewrite Hg. eauto.
  - destruct (detected_sse42 g); [|eauto].
    eexists. split; [reflexivity|].
    apply (processed_block m input0 length0 crc0 _ 256);
      [lia|apply clmul_256_sequential|].
    apply (processed_block m input0 length0 crc0 _ 1024);
      [lia|apply clmul_1024_sequential|].
    apply (processed_block m input0 length0 crc0 _ 3072);
      [lia|apply clmul_3072_sequential|].
    exact Hs.
Qed.

(** Whenever the wide-vector tier is not entered the dispatcher returns
    the complement of sequential processing from the complemented seed. *)
Lemma crc32c_hw_compute_sequential g m input length previousCrc32 :
  avx512_tier_taken g input length = false ->
  crc32c_hw_compute g m input length previousCrc32
  = not32 (crc32c_bytes m input (Z.to_nat length) (not32 previousCrc32)).
Proof.
  intros Hg. unfold crc32c_hw_compute.
  destruct (Z.ltb_spec length 8) as [Hl|Hl].
  - rewrite crc32b_loop_spec. reflexivity.
  - cbv zeta. fold (leading_bytes input).
    pose proof (leading_bytes_range input) as Hlead.
    rewrite crc32b_loop_spec. cbn [c_crc c_input c_length].
    set (s := mk_cursor _ _ _).
    assert (Hs : processed m input length (not32 previousCrc32) s).
    { exists (Z.to_nat (leading_bytes input)). subst s.
      cbn [c_crc c_input c_length]. repeat split; lia. }
    destruct (processed_tiers g m input length (not32 previousCrc32) s)
      as (s' & -> & Hs'); [|exact Hs|].
    { unfold avx512_tier_taken in Hg. subst s. cbn [c_length].
      destruct (Z.leb_spec 8 length); [|lia].
      now rewrite andb_true_r in Hg. }
    f_equal.
    apply (processed_finish m input length (not32 previousCrc32)).
    apply (processed_block m input length (not32 previousCrc32)
             (fun m a c => CRC32Q (load64 m a) c) 8);
      [lia|intros; apply CRC32Q_load64|exact Hs'].
Qed.

(** The scalar loops applied to what is left. *)
Lemma scalar_drain m crc input length :
  0 <= length ->
  c_crc (crc32b_loop m (crc32q_loop m (mk_cursor crc input length)))
  = crc32c_bytes m input (Z.to_nat length) crc.
Proof.
  intros Hl.
  apply (processed_finish m input length crc).
  apply (processed_block m input length crc
           (fun m a c => CRC32Q (load64 m a) c) 8);
    [lia|intros; apply CRC32Q_load64|].
  exists 0%nat. cbn [c_crc c_input c_length crc32c_bytes Z.of_nat].
  repeat split; lia.
Qed.

(** ** The software implementation computes the same byte step *)

Lemma crc32c_table_eq i : crc32c_table i = Nat.iter 8 crc_shift1 i.
Proof. reflexivity. Qed.

Lemma split_low_byte x :
  x = Z.lxor (Z.land x 0xFF) (Z.shiftl (Z.shiftr x 8) 8).
Proof.
  apply Z.bits_inj'. intros i Hi.
  rewrite Z.lxor_spec, Z.land_spec. change 0xFF with (Z.ones 8).
  destruct (Z.lt_ge_cases i 8).
  - rewrite Z.ones_spec_low, Z.shiftl_spec_low by lia.
    now rewrite andb_true_r, xorb_false_r.
  - rewrite Z.ones_spec_high, Z.shiftl_spec, Z.shiftr_spec by lia.
    rewrite andb_false_r. cbn [xorb]. f_equal. lia.
Qed.

Lemma iter8_low_byte x :
  Nat.iter 8 crc_shift1 x
  = Z.lxor (crc32c_table (Z.land x 0xFF)) (Z.shiftr x 8).
Proof.
  rewrite (split_low_byte x) at 1.
  rewrite iter_shift_lxor.
  change (Z.shiftl (Z.shiftr x 8) 8)
    with (Z.shiftl (Z.shiftr x 8) (Z.of_nat 8)).
  now rewrite iter_shift_shiftl, <- crc32c_table_eq.
Qed.

Lemma crc32c_sw_step_eq c b :
  u32 c -> 0 <= b < 256 -> crc32c_sw_step c b = CRC32B b c.
Proof.
  intros Hc Hb. unfold crc32c_sw_step.
  rewrite CRC32B_eq, crc32_insn_eq, (land_mask32_id c Hc).
  rewrite (iter8_low_byte (Z.lxor c b)), Z.shiftr_lxor.
  replace (Z.shiftr b 8) with 0; [now rewrite Z.lxor_0_r|].
  rewrite Z.shiftr_div_pow2 by lia. symmetry. apply Z.div_small.
  change (2 ^ 8) with 256. lia.
Qed.

Lemma crc32c_sw_loop_eq m n : forall a c,
  u32 c -> crc32c_sw_loop m a n c = crc32c_bytes m a n c.
Proof.
  induction n as [|n IH]; intros a c Hc; [reflexivity|].
  cbn [crc32c_sw_loop]. rewrite crc32c_bytes_S.
  rewrite crc32c_sw_step_eq by (auto using load8_bound).
  apply IH, crc32_insn_u32_byte, load8_bound.
Qed.

Lemma aws_checksums_crc32c_sw_eq m input length previousCrc32 :
  aws_checksums_crc32c_sw m input length previousCrc32
  = not32 (crc32c_bytes m input (Z.to_nat length) (not32 previousCrc32)).
Proof.
  unfold aws_checksums_crc32c_sw.
  now rewrite crc32c_sw_loop_eq by apply not32_u32.
Qed.

(** Away from the wide-vector tier the dispatcher agrees with the
    software implementation, whatever the other flags say. *)
Lemma crc32c_hw_compute_sw g m input length previousCrc32 :
  avx512_tier_taken g input length = false ->
  crc32c_hw_compute g m input length previousCrc32
  = aws_checksums_crc32c_sw m input length previousCrc32.
Proof.
  intros H. rewrite aws_checksums_crc32c_sw_eq.
  now apply crc32c_hw_compute_sequential.
Qed.

Lemma avx512_tier_short g input length :
  length < 256 -> avx512_tier_taken g input length = false.
Proof.
  intros H. unfold avx512_tier_taken.
  pose proof (leading_bytes_range input).
  destruct (Z.leb_spec 256 (length - leading_bytes input)); [lia|].
  apply andb_false_r.
Qed.

(** ** The dispatcher inside the wide-vector tier *)

Lemma wide_vector_accounting_holds g m input length previousCrc32 :
  avx512_tier_taken g input length = true ->
  wide_vector_accounting g m input length previousCrc32.
Proof.
  intros Ht. unfold avx512_tier_taken in Ht.
  apply andb_prop in Ht. destruct Ht as [Ht H256].
  apply andb_prop in Ht. destruct Ht as [Ht H8].
  apply andb_prop in Ht. destruct Ht as [Hclmul Havx].
  apply Z.leb_le in H256, H8.
  pose proof (leading_bytes_range input) as Hlead.
  unfold wide_vector_accounting. cbv zeta.
  set (L := length - leading_bytes input) in *.
  set (p := input + leading_bytes input).
  set (crc0 := crc32c_bytes m input (Z.to_nat (leading_bytes input))
                 (not32 previousCrc32)).
  destruct (crc32c_avx512_run_accounting m p L crc0 H256) as [EI EL].
  assert (Er : crc32c_avx512 m p L crc0
               = fst (fst (crc32c_avx512_run m p L crc0))) by reflexivity.
  pose proof (crc32c_avx512_sequential m p L crc0 H256) as Es.
  rewrite Er in Es.
  destruct (crc32c_avx512_run m p L crc0) as [[r input'] length'].
  cbn [fst snd] in EI, EL, Er, Es.
  rewrite land_lnot_63.
  pose proof (Z.div_mod L 64 ltac:(lia)) as D.
  pose proof (Z.mod_pos_bound L 64 ltac:(lia)) as B.
  split; [reflexivity|]. split; [exact Es|].
  split; [exact EI|]. split; [exact EL|].
  split; [lia|]. split.
  - unfold crc32c_hw_compute.
    destruct (Z.ltb_spec length 8); [lia|]. cbv zeta.
    fold (leading_bytes input). fold L.
    rewrite crc32b_loop_spec. cbn [c_crc c_input c_length].
    rewrite Z2Nat.id by lia. fold p. fold crc0.
    unfold tiers. rewrite Hclmul, Havx. cbn [c_length c_input c_crc].
    destruct (Z.leb_spec 256 L); [|lia].
    rewrite land_lnot_63, Er.
    destruct (L - 64 * (L / 64) =? 0); reflexivity.
  - apply scalar_drain. lia.
Qed.

(** C4. When the wide-vector tier is entered, the folder folds exactly
    the first [length] rounded down to a multiple of 64 bytes into the
    running value, advances its own pointer by that amount and is left
    with fewer than 64 bytes; the dispatcher computes that amount before
    the call, moves its pointer and length by it, returns at once when
    nothing is left and otherwise hands the rest to the scalar loops,
    which process exactly those bytes. *)
Theorem wide_vector_tier_accounting g m input length previousCrc32 :
  avx512_tier_taken g input length = true ->
  wide_vector_accounting g m input length previousCrc32.
Proof. apply wide_vector_accounting_holds. Qed.

Lemma wide_vector_tier_accounting_witness :
  avx512_tier_taken all_detected 0 257 = true
  /\ wide_vector_accounting all_detected (zeros 257) 0 257 0.
Proof.
  split; [reflexivity|].
  apply wide_vector_tier_accounting. reflexivity.
Defined.

(** What a call that enters the wide-vector tier returns.  With no
    residue it is the complement of sequential processing; with a residue
    of [res] bytes the value reached before the residue is complemented
    once more before the residue is processed. *)
Lemma crc32c_hw_compute_wide_vector g m input length previousCrc32 :
  avx512_tier_taken g input length = true ->
  let res := (length - leading_bytes input) mod 64 in
  let before := crc32c_bytes m input (Z.to_nat (length - res))
                  (not32 previousCrc32) in
  crc32c_hw_compute g m input length previousCrc32
  = if res =? 0 then not32 before
    else not32 (crc32c_bytes m (input + (length - res)) (Z.to_nat res)
                  (not32 before)).
Proof.
  intros Ht.
  pose proof (wide_vector_accounting_holds g m input length previousCrc32 Ht)
    as H.
  unfold avx512_tier_taken in Ht.
  apply andb_prop in Ht. destruct Ht as [Ht H256].
  apply Z.leb_le in H256.
  pose proof (leading_bytes_range input) as Hlead.
  unfold wide_vector_accounting in H. cbv zeta in H.
  set (L := length - leading_bytes input) in *.
  set (p := input + leading_bytes input) in *.
  set (crc0 := crc32c_bytes m input (Z.to_nat (leading_bytes input))
                 (not32 previousCrc32)) in *.
  destruct (crc32c_avx512_run m p L crc0) as [[r input'] length'].
  destruct H as (Ec & Er & _ & _ & Hres & Hhw & Hdrain).
  rewrite Ec in *.
  pose proof (Z.div_mod L 64 ltac:(lia)) as D.
  cbv zeta. replace (L - 64 * (L / 64)) with (L mod 64) in * by lia.
  assert (Eb : r = crc32c_bytes m input (Z.to_nat (length - L mod 64))
                     (not32 previousCrc32)).
  { rewrite Er. unfold crc0, p.
    rewrite crc32c_bytes_merge by lia. f_equal. unfold L in *. lia. }
  rewrite Hhw, Hdrain, <- Eb.
  replace (p + 64 * (L / 64)) with (input + (length - L mod 64))
    by (unfold p, L in *; lia).
  reflexivity.
Qed.

Lemma residue_shift_ok : residue_shift_nonzero = true.
Proof. vm_compute. reflexivity. Qed.

Lemma lxor_not32 x : u32 x -> Z.lxor x (not32 x) = mask32.
Proof.
  intros H. rewrite <- (land_mask32_id x H) at 1. unfold not32.
  apply Z.bits_inj'. intros i Hi.
  rewrite Z.lxor_spec, !Z.land_spec, Z.lnot_spec by lia.
  destruct (Z.testbit x i), (Z.testbit mask32 i); reflexivity.
Qed.

Lemma not32_inj x y : u32 x -> u32 y -> not32 x = not32 y -> x = y.
Proof.
  intros Hx Hy E. rewrite <- (not32_involutive x Hx), E.
  now apply not32_involutive.
Qed.

(** A residue processed from the complemented value never gives the
    value it gives from the value itself. *)
Lemma residue_from_complement m a res x :
  u32 x -> 0 < res < 64 ->
  crc32c_bytes m a (Z.to_nat res) (not32 x)
  <> crc32c_bytes m a (Z.to_nat res) x.
Proof.
  intros Hx Hres E.
  rewrite (crc32c_bytes_affine m _ a (not32 x)) in E by apply not32_u32.
  rewrite (crc32c_bytes_affine m _ a x) in E by exact Hx.
  assert (E' : Z.lxor (crc_shift (Z.to_nat res * 8) x)
                 (crc_shift (Z.to_nat res * 8) (not32 x)) = 0).
  { apply Z.lxor_eq_0_iff.
    apply (f_equal (Z.lxor (crc32c_bytes m a (Z.to_nat res) 0))) in E.
    rewrite <- !Z.lxor_assoc, !Z.lxor_nilpotent, !Z.lxor_0_l in E.
    now symmetry. }
  rewrite <- crc_shift_lxor, lxor_not32 in E' by exact Hx.
  pose proof (forallb_below_spec 63 _ residue_shift_ok
                (Z.to_nat res - 1) ltac:(lia)) as Hnz.
  cbv beta in Hnz.
  replace (S (Z.to_nat res - 1)) with (Z.to_nat res) in Hnz by lia.
  rewrite E' in Hnz. discriminate Hnz.
Qed.

(** The dispatcher agrees with the software implementation exactly when
    the call does not leave a residue behind the wide-vector folder. *)
Lemma crc32c_hw_compute_sw_iff g m input length previousCrc32 :
  crc32c_hw_compute g m input length previousCrc32
  = aws_checksums_crc32c_sw m input length previousCrc32
  <-> wide_vector_residue g input length = false.
Proof.
  unfold wide_vector_residue.
  destruct (avx512_tier_taken g input length) eqn:Ht; cbn [andb].
  2:{ split; [reflexivity|]. intros _. now apply crc32c_hw_compute_sw. }
  rewrite (crc32c_hw_compute_wide_vector g m input length previousCrc32 Ht).
  rewrite aws_checksums_crc32c_sw_eq. cbv zeta.
  assert (Hl : 256 <= length - leading_bytes input).
  { unfold avx512_tier_taken in Ht. apply andb_prop in Ht.
    destruct Ht as [_ H]. now apply Z.leb_le in H. }
  pose proof (leading_bytes_range input) as Hlead.
  set (L := length - leading_bytes input) in *.
  pose proof (Z.mod_pos_bound L 64 ltac:(lia)) as B.
  pose proof (Z.div_mod L 64 ltac:(lia)) as D.
  assert (0 <= L / 64) by (apply Z.div_pos; lia).
  destruct (Z.eqb_spec (L mod 64) 0) as [E0|E0]; cbn [negb].
  - split; [reflexivity|]. intros _. rewrite E0.
    now rewrite Z.sub_0_r.
  - split; [|discriminate]. intros E. exfalso.
    apply not32_inj in E;
      [|apply crc32c_bytes_u32, not32_u32|apply crc32c_bytes_u32, not32_u32].
    replace (Z.to_nat length)
      with (Z.to_nat (length - L mod 64) + Z.to_nat (L mod 64))%nat in E
      by (unfold L in *; lia).
    rewrite crc32c_bytes_app in E.
    replace (input + Z.of_nat (Z.to_nat (length - L mod 64)))
      with (input + (length - L mod 64)) in E by (unfold L in *; lia).
    revert E. apply residue_from_complement; [|lia].
    apply crc32c_bytes_u32, not32_u32.
Qed.

(** ** Empty and short inputs *)

(** C5. A call with length 0 returns the seed unchanged, for every
    pointer, every memory content and every state of the flags. *)
Theorem empty_input_returns_seed probe g m input seed :
  u32 seed ->
  fst (aws_checksums_crc32c_hw probe g m input 0 seed) = seed.
Proof.
  intros Hs. cbn [aws_checksums_crc32c_hw fst].
  unfold crc32c_hw_compute. cbn [Z.ltb Z.compare].
  rewrite crc32b_loop_spec. cbn [c_crc c_length Z.to_nat crc32c_bytes].
  now apply not32_involutive.
Qed.

Lemma empty_input_returns_seed_witness :
  u32 0xDEADBEEF
  /\ fst (aws_checksums_crc32c_hw (fun _ => true) initial_globals
            [x01; x02; x03] 1 0 0xDEADBEEF) = 0xDEADBEEF.
Proof.
  split; [unfold u32; lia|].
  apply empty_input_returns_seed. unfold u32. lia.
Defined.

(** C7. Below 8 bytes the call is the byte loop alone: the result is the
    complement of what [length] byte instructions make of the complemented
    seed, whatever the address of the buffer and the flags are. *)
Theorem short_input_byte_loop probe g m input length seed :
  0 <= length < 8 ->
  fst (aws_checksums_crc32c_hw probe g m input length seed)
  = not32 (c_crc (crc32b_loop m (mk_cursor (not32 seed) input length)))
  /\ c_crc (crc32b_loop m (mk_cursor (not32 seed) input length))
     = crc32c_bytes m input (Z.to_nat length) (not32 seed).
Proof.
  intros Hl. split.
  - cbn [aws_checksums_crc32c_hw fst]. unfold crc32c_hw_compute.
    destruct (Z.ltb_spec length 8); [reflexivity|lia].
  - rewrite crc32b_loop_spec. reflexivity.
Qed.

Lemma short_input_byte_loop_witness :
  0 <= 3 < 8
  /\ fst (aws_checksums_crc32c_hw (fun _ => true) initial_globals
            [x00; x61; x62; x63] 1 3 0)
     = not32 (c_crc (crc32b_loop [x00; x61; x62; x63]
                       (mk_cursor (not32 0) 1 3)))
  /\ c_crc (crc32b_loop [x00; x61; x62; x63] (mk_cursor (not32 0) 1 3))
     = crc32c_bytes [x00; x61; x62; x63] 1 (Z.to_nat 3) (not32 0).
Proof.
  split; [lia|]. apply short_input_byte_loop. lia.
Defined.

(** ** The known vector *)

Lemma crc32c_bytes_list m data : forall input crc,
  bytes_at m input data ->
  crc32c_bytes m input (List.length data) crc = crc32c_list data crc.
Proof.
  unfold crc32c_list.
  induction data as [|b data IH]; intros input crc H; [reflexivity|].
  cbn [List.length fold_left]. rewrite crc32c_bytes_S.
  pose proof (H 0%nat ltac:(cbn; lia)) as H0.
  cbn [nth Z.of_nat] in H0. rewrite Z.add_0_r in H0. rewrite H0.
  apply IH. intros i Hi.
  pose proof (H (S i) ltac:(cbn; lia)) as Hi'. cbn [nth] in Hi'.
  rewrite <- Hi'. f_equal. lia.
Qed.

(** C6. With seed 0 the nine ASCII bytes "123456789" give 0xE3069283,
    wherever they lie in memory and whatever the probe answers. *)
Theorem known_vector probe g m input :
  bytes_at m input check_string ->
  fst (aws_checksums_crc32c_hw probe g m input 9 0) = 0xE3069283.
Proof.
  intros H. cbn [aws_checksums_crc32c_hw fst].
  rewrite crc32c_hw_compute_sequential by (apply avx512_tier_short; lia).
  change (Z.to_nat 9) with (List.length check_string).
  rewrite (crc32c_bytes_list m check_string input _ H).
  vm_compute. reflexivity.
Qed.

Lemma known_vector_witness :
  bytes_at (x00 :: x00 :: x00 :: check_string) 3 check_string
  /\ fst (aws_checksums_crc32c_hw (fun _ => true) initial_globals
            (x00 :: x00 :: x00 :: check_string) 3 9 0) = 0xE3069283.
Proof.
  assert (H : bytes_at (x00 :: x00 :: x00 :: check_string) 3 check_string).
  { intros i Hi. cbn [List.length check_string] in Hi.
    do 9 (destruct i as [|i]; [reflexivity|]). lia. }
  split; [exact H|]. apply known_vector. exact H.
Defined.

(** ** The capability flags *)

Lemma detect_performed probe g : detection_performed (detect probe g) = true.
Proof.
  unfold detect. destruct (detection_performed g) eqn:E; [exact E|reflexivity].
Qed.

Lemma detect_cached probe g :
  detection_performed g = true -> detect probe g = g.
Proof. intros E. unfold detect. now rewrite E. Qed.

Lemma globals_after_cached calls : forall g,
  detection_performed g = true -> globals_after calls g = g.
Proof.
  induction calls as [|c calls IH]; intros g Hg; [reflexivity|].
  cbn [globals_after fold_left do_call aws_checksums_crc32c_hw snd].
  rewrite detect_cached by exact Hg. apply IH. exact Hg.
Qed.

(** C10. In a sequence of calls the flags are written by the first call
    only: it stores the answers of the probe and sets
    [detection_performed]; every later call finds that flag set, leaves
    the four variables as they are and computes with the stored answers,
    whatever the probe would answer by then. *)
Theorem capability_flags_written_once first later :
  let g1 := snd (do_call first initial_globals) in
  g1 = mk_globals true (call_probe first AWS_CPU_FEATURE_CLMUL)
         (call_probe first AWS_CPU_FEATURE_SSE_4_2)
         (call_probe first AWS_CPU_FEATURE_AVX512)
  /\ globals_after (first :: later) initial_globals = g1
  /\ forall c,
       do_call c (globals_after (first :: later) initial_globals)
       = (crc32c_hw_compute g1 (call_mem c) (call_input c)
            (call_length c) (call_seed c), g1).
Proof.
  cbv zeta. split; [reflexivity|].
  assert (H : forall l, globals_after (first :: l) initial_globals
                        = snd (do_call first initial_globals)).
  { intros l. cbn [globals_after fold_left].
    apply globals_after_cached. apply detect_performed. }
  split; [apply H|].
  intros c. rewrite H.
  unfold do_call at 1. unfold aws_checksums_crc32c_hw.
  rewrite detect_cached by apply detect_performed. reflexivity.
Qed.

(** ** The dispatcher against the software implementation *)

(** C1, at a failing input.  With CLMUL and AVX512 reported, 257 zero
    bytes at an aligned address and seed 0: the folder takes 256 bytes,
    its result is complemented, and the one byte left is then processed
    from that complemented value; the software implementation returns
    another checksum. *)
Theorem wide_vector_residue_differs_from_sw :
  fst (aws_checksums_crc32c_hw probe_all initial_globals (zeros 257) 0 257 0)
  = 0x6def7159
  /\ aws_checksums_crc32c_sw (zeros 257) 0 257 0 = 0xc06dddf7.
Proof. split; vm_compute; reflexivity. Qed.

(** C2, at a failing input.  The same buffer split after 256 bytes: the
    two chained calls return the software checksum of the 257 bytes, the
    single call does not. *)
Theorem wide_vector_residue_breaks_chaining :
  let m := zeros 257 in
  let '(first, g1) := aws_checksums_crc32c_hw probe_all initial_globals
                        m 0 256 0 in
  let '(chained, g2) := aws_checksums_crc32c_hw probe_all g1
                          m (0 + 256) (257 - 256) first in
  let '(whole, _) := aws_checksums_crc32c_hw probe_all g2 m 0 257 0 in
  chained = 0xc06dddf7 /\ whole = 0x6def7159.
Proof. vm_compute. split; reflexivity. Qed.

(** C8, at a failing input.  257 zero bytes placed at address 0 and at
    address 1: at address 0 the wide-vector tier is entered with one byte
    left over, at address 1 the alignment prologue leaves 250 bytes and
    the tier is skipped. *)
Theorem wide_vector_residue_breaks_alignment_independence :
  same_bytes (zeros 257) 0 (xff :: zeros 257) 1 257
  /\ fst (aws_checksums_crc32c_hw probe_all initial_globals
            (zeros 257) 0 257 0) = 0x6def7159
  /\ fst (aws_checksums_crc32c_hw probe_all initial_globals
            (xff :: zeros 257) 1 257 0) = 0xc06dddf7.
Proof.
  split; [|split; vm_compute; reflexivity].
  intros i Hi. unfold load8.
  destruct (Z.ltb_spec (0 + Z.of_nat i) 0); [lia|].
  destruct (Z.ltb_spec (1 + Z.of_nat i) 0); [lia|].
  replace (Z.to_nat (1 + Z.of_nat i)) with (S i) by lia.
  replace (Z.to_nat (0 + Z.of_nat i)) with i by lia.
  reflexivity.
Qed.

(** What holds for every input: calls that leave no residue behind the
    wide-vector folder chain and do not depend on the placement. *)

Lemma crc32c_bytes_ext m1 m2 n : forall a1 a2 crc,
  same_bytes m1 a1 m2 a2 n ->
  crc32c_bytes m1 a1 n crc = crc32c_bytes m2 a2 n crc.
Proof.
  induction n as [|n IH]; intros a1 a2 crc H; [reflexivity|].
  rewrite !crc32c_bytes_S.
  pose proof (H 0%nat ltac:(lia)) as H0. cbn [Z.of_nat] in H0.
  rewrite !Z.add_0_r in H0. rewrite H0.
  apply IH. intros i Hi. pose proof (H (S i) ltac:(lia)) as Hi'.
  replace (a1 + 1 + Z.of_nat i) with (a1 + Z.of_nat (S i)) by lia.
  replace (a2 + 1 + Z.of_nat i) with (a2 + Z.of_nat (S i)) by lia.
  exact Hi'.
Qed.

Lemma no_wide_vector_residue g input length :
  detected_clmul g && detected_avx512 g = false ->
  wide_vector_residue g input length = false.
Proof.
  intros H. unfold wide_vector_residue, avx512_tier_taken. now rewrite H.
Qed.

Lemma aws_checksums_crc32c_sw_chaining m input length n previousCrc32 :
  0 <= n <= length ->
  aws_checksums_crc32c_sw m (input + n) (length - n)
    (aws_checksums_crc32c_sw m input n previousCrc32)
  = aws_checksums_crc32c_sw m input length previousCrc32.
Proof.
  intros Hn. rewrite !aws_checksums_crc32c_sw_eq.
  rewrite not32_involutive by (apply crc32c_bytes_u32, not32_u32).
  f_equal. replace (Z.to_nat length)
    with (Z.to_nat n + Z.to_nat (length - n))%nat by lia.
  rewrite crc32c_bytes_app. f_equal. lia.
Qed.

Lemma chaining_without_residue g m input length n previousCrc32 :
  0 <= n <= length ->
  wide_vector_residue g input n = false ->
  wide_vector_residue g (input + n) (length - n) = false ->
  wide_vector_residue g input length = false ->
  crc32c_hw_compute g m (input + n) (length - n)
    (crc32c_hw_compute g m input n previousCrc32)
  = crc32c_hw_compute g m input length previousCrc32.
Proof.
  intros Hn H1 H2 H3.
  rewrite (proj2 (crc32c_hw_compute_sw_iff g m input n _) H1).
  rewrite (proj2 (crc32c_hw_compute_sw_iff g m (input + n) (length - n) _) H2).
  rewrite (proj2 (crc32c_hw_compute_sw_iff g m input length _) H3).
  now apply aws_checksums_crc32c_sw_chaining.
Qed.

Lemma alignment_independence_without_residue
    g m1 input1 m2 input2 length previousCrc32 :
  same_bytes m1 input1 m2 input2 (Z.to_nat length) ->
  wide_vector_residue g input1 length = false ->
  wide_vector_residue g input2 length = false ->
  crc32c_hw_compute g m1 input1 length previousCrc32
  = crc32c_hw_compute g m2 input2 length previousCrc32.
Proof.
  intros H H1 H2.
  rewrite (proj2 (crc32c_hw_compute_sw_iff g m1 input1 length _) H1).
  rewrite (proj2 (crc32c_hw_compute_sw_iff g m2 input2 length _) H2).
  rewrite !aws_checksums_crc32c_sw_eq. f_equal.
  now apply crc32c_bytes_ext.
Qed.

(** ** Further properties of the kernels and of the dispatcher *)

Lemma same_bytes_part m1 m2 a n k j :
  same_bytes m1 a m2 a n -> (k + j <= n)%nat ->
  same_bytes m1 (a + Z.of_nat k) m2 (a + Z.of_nat k) j.
Proof.
  intros H Hk i Hi. unfold same_bytes in H.
  replace (a + Z.of_nat k + Z.of_nat i) with (a + Z.of_nat (k + i)) by lia.
  apply H. lia.
Qed.

Lemma same_bytes_prefix m1 m2 a n k :
  same_bytes m1 a m2 a n -> (k <= n)%nat -> same_bytes m1 a m2 a k.
Proof. intros H Hk i Hi. apply H. lia. Qed.

Lemma same_bytes_zeros_shifted n :
  same_bytes (zeros n) 0 (xff :: zeros n) 1 n.
Proof.
  intros i Hi. unfold load8.
  replace (0 + Z.of_nat i <? 0) with false by (symmetry; apply Z.ltb_ge; lia).
  replace (1 + Z.of_nat i <? 0) with false by (symmetry; apply Z.ltb_ge; lia).
  replace (Z.to_nat (1 + Z.of_nat i)) with (S i) by lia.
  replace (Z.to_nat (0 + Z.of_nat i)) with i by lia.
  reflexivity.
Qed.

Lemma aligned_after_leading input :
  Z.land (input + leading_bytes input) 0x7 = 0.
Proof.
  unfold leading_bytes.
  change 0x7 with (Z.ones 3). rewrite !Z.land_ones by lia.
  change (2 ^ 3) with 8.
  rewrite Zplus_mod_idemp_r.
  pose proof (Z.div_mod input 8 ltac:(lia)) as D.
  replace (input + (8 - input mod 8)) with ((input / 8 + 1) * 8) by lia.
  apply Z_mod_mult.
Qed.

Lemma load128_mask m a : Z.land (load128 m a) (Z.ones 128) = load128 m a.
Proof.
  rewrite Z.land_ones by lia. apply Z.mod_small.
  exact (load_le_bound m 16 a).
Qed.

Lemma tier_taken_flags g g' input length :
  detected_clmul g && detected_avx512 g
  = detected_clmul g' && detected_avx512 g' ->
  avx512_tier_taken g input length = avx512_tier_taken g' input length.
Proof. intros H. unfold avx512_tier_taken. now rewrite H. Qed.

(** X1.  The wide-vector kernel [crc32c_avx512], handed at least 256
    bytes, returns what byte-by-byte processing of the first
    [64 * (length / 64)] bytes gives from the same running value: the
    folds by 2048, 512 and 128 bits and the final reduction are exact,
    for every buffer, address, length and running value. *)
Theorem avx512_folder_sequential m input length crc :
  256 <= length ->
  crc32c_avx512 m input length crc
  = crc32c_bytes m input (Z.to_nat (64 * (length / 64))) crc.
Proof. apply crc32c_avx512_sequential. Qed.

Lemma avx512_folder_sequential_witness :
  256 <= 300
  /\ crc32c_avx512 (zeros 300) 0 300 5
     = crc32c_bytes (zeros 300) 0 (Z.to_nat (64 * (300 / 64))) 5.
Proof.
  split; [lia | apply (avx512_folder_sequential (zeros 300) 0 300 5); lia].
Defined.

(** X2.  A call of [aws_checksums_crc32c_hw] returns the software CRC32C
    of the same arguments exactly when it does not leave a residue behind
    the wide-vector kernel, that is unless CLMUL and AVX512 are both
    detected, at least 256 bytes remain after the alignment prologue and
    that remainder is not a multiple of 64. *)
Theorem hw_equals_sw_iff_no_residue probe g m input length previousCrc32 :
  fst (aws_checksums_crc32c_hw probe g m input length previousCrc32)
  = aws_checksums_crc32c_sw m input length previousCrc32
  <-> wide_vector_residue (detect probe g) input length = false.
Proof.
  exact (crc32c_hw_compute_sw_iff (detect probe g) m input length
           previousCrc32).
Qed.

(** X3.  Feeding the result of a call on the first [n] bytes as the seed
    of a call on the rest gives the result of one call on the whole
    buffer, whenever none of the three calls leaves a residue behind the
    wide-vector kernel. *)
Theorem hw_chaining_without_residue g m input length n previousCrc32 :
  0 <= n <= length ->
  wide_vector_residue g input n = false ->
  wide_vector_residue g (input + n) (length - n) = false ->
  wide_vector_residue g input length = false ->
  crc32c_hw_compute g m (input + n) (length - n)
    (crc32c_hw_compute g m input n previousCrc32)
  = crc32c_hw_compute g m input length previousCrc32.
Proof. apply chaining_without_residue. Qed.

Lemma hw_chaining_without_residue_witness :
  0 <= 300 <= 4000
  /\ wide_vector_residue (mk_globals true true true false) 0 300 = false
  /\ wide_vector_residue (mk_globals true true true false) (0 + 300)
       (4000 - 300) = false
  /\ wide_vector_residue (mk_globals true true true false) 0 4000 = false
  /\ crc32c_hw_compute (mk_globals true true true false) (zeros 4000)
       (0 + 300) (4000 - 300)
       (crc32c_hw_compute (mk_globals true true true false) (zeros 4000)
          0 300 7)
     = crc32c_hw_compute (mk_globals true true true false) (zeros 4000)
         0 4000 7.
Proof.
  split; [lia | ]. split; [reflexivity | ].
  split; [reflexivity | ]. split; [reflexivity | ].
  apply (hw_chaining_without_residue (mk_globals true true true false)
           (zeros 4000) 0 4000 300 7); [lia | reflexivity ..].
Defined.

(** X4.  Two placements of the same bytes, at addresses of any
    alignment, give the same result for the same length and seed,
    whenever neither call leaves a residue behind the wide-vector
    kernel. *)
Theorem hw_alignment_independent_without_residue
    g m1 input1 m2 input2 length previousCrc32 :
  same_bytes m1 input1 m2 input2 (Z.to_nat length) ->
  wide_vector_residue g input1 length = false ->
  wide_vector_residue g input2 length = false ->
  crc32c_hw_compute g m1 input1 length previousCrc32
  = crc32c_hw_compute g m2 input2 length previousCrc32.
Proof. apply alignment_independence_without_residue. Qed.

Lemma hw_alignment_independent_without_residue_witness :
  same_bytes (zeros 4000) 0 (xff :: zeros 4000) 1 (Z.to_nat 4000)
  /\ wide_vector_residue (mk_globals true true true false) 0 4000 = false
  /\ wide_vector_residue (mk_globals true true true false) 1 4000 = false
  /\ crc32c_hw_compute (mk_globals true true true false) (zeros 4000)
       0 4000 7
     = crc32c_hw_compute (mk_globals true true true false)
         (xff :: zeros 4000) 1 4000 7.
Proof.
  assert (H : same_bytes (zeros 4000) 0 (xff :: zeros 4000) 1
                (Z.to_nat 4000)).
  { replace (Z.to_nat 4000) with 4000%nat by lia.
    exact (same_bytes_zeros_shifted 4000). }
  split; [exact H | ]. split; [reflexivity | ]. split; [reflexivity | ].
  exact (hw_alignment_independent_without_residue
           (mk_globals true true true false) (zeros 4000) 0
           (xff :: zeros 4000) 1 4000 7 H eq_refl eq_refl).
Defined.

(** X5.  The result of a call depends on memory only through the
    [length] bytes of the buffer: two memories that agree on
    [input .. input + length - 1] give the same result, for every flag
    state, alignment, length and seed (also where the wide-vector tier
    leaves a residue). *)
Theorem hw_reads_only_the_buffer g m1 m2 input length previousCrc32 :
  same_bytes m1 input m2 input (Z.to_nat length) ->
  crc32c_hw_compute g m1 input length previousCrc32
  = crc32c_hw_compute g m2 input length previousCrc32.
Proof.
  intros H.
  destruct (avx512_tier_taken g input length) eqn:Ht.
  - rewrite (crc32c_hw_compute_wide_vector g m1 input length _ Ht).
    rewrite (crc32c_hw_compute_wide_vector g m2 input length _ Ht).
    cbv zeta.
    unfold avx512_tier_taken in Ht.
    apply andb_prop in Ht. destruct Ht as [_ H256]. apply Z.leb_le in H256.
    pose proof (leading_bytes_range input) as Hlead.
    pose proof (Z.mod_pos_bound (length - leading_bytes input) 64
                  ltac:(lia)) as Hres.
    pose proof (Z.mod_le (length - leading_bytes input) 64
                  ltac:(lia) ltac:(lia)) as Hle.
    set (res := (length - leading_bytes input) mod 64) in *.
    assert (E1 : crc32c_bytes m1 input (Z.to_nat (length - res))
                   (not32 previousCrc32)
                 = crc32c_bytes m2 input (Z.to_nat (length - res))
                     (not32 previousCrc32)).
    { apply crc32c_bytes_ext.
      apply (same_bytes_prefix m1 m2 input (Z.to_nat length)); [exact H | lia]. }
    rewrite E1. destruct (res =? 0); [reflexivity | ]. f_equal.
    apply crc32c_bytes_ext.
    replace (input + (length - res))
      with (input + Z.of_nat (Z.to_nat (length - res))) by lia.
    apply (same_bytes_part m1 m2 input (Z.to_nat length)); [exact H | lia].
  - rewrite !crc32c_hw_compute_sequential by exact Ht.
    f_equal. now apply crc32c_bytes_ext.
Qed.

Lemma hw_reads_only_the_buffer_witness :
  same_bytes [x01; x02; x03] 0 [x01; x02; x09] 0 (Z.to_nat 2)
  /\ crc32c_hw_compute all_detected [x01; x02; x03] 0 2 0
     = crc32c_hw_compute all_detected [x01; x02; x09] 0 2 0.
Proof.
  assert (H : same_bytes [x01; x02; x03] 0 [x01; x02; x09] 0 (Z.to_nat 2)).
  { intros i Hi. change (Z.to_nat 2) with 2%nat in Hi.
    destruct i as [| [| i]]; [reflexivity | reflexivity | lia]. }
  split; [exact H | ].
  exact (hw_reads_only_the_buffer all_detected [x01; x02; x03]
           [x01; x02; x09] 0 2 0 H).
Defined.

(** X6.  For a call with at least 8 bytes the alignment prologue takes
    between 0 and 7 bytes with [CRC32B], and the pointer it hands to the
    tier selection (and so to every [CRC32Q], stripe kernel and vector
    kernel that follows) is 8-byte aligned. *)
Theorem prologue_aligns_the_pointer g m input length previousCrc32 :
  8 <= length ->
  let leading := Z.land (8 - Z.land input 0x7) 0x7 in
  0 <= leading <= 7
  /\ Z.land (input + leading) 0x7 = 0
  /\ crc32c_hw_compute g m input length previousCrc32
     = match
         tiers g m
           (mk_cursor
              (crc32c_bytes m input (Z.to_nat leading) (not32 previousCrc32))
              (input + leading) (length - leading))
       with
       | inl crc => crc
       | inr s => not32 (c_crc (crc32b_loop m (crc32q_loop m s)))
       end.
Proof.
  intros H8. cbv zeta.
  pose proof (leading_bytes_range input) as Hlead.
  pose proof (aligned_after_leading input) as Hal.
  unfold leading_bytes in Hlead, Hal.
  split; [exact Hlead | ]. split; [exact Hal | ].
  unfold crc32c_hw_compute.
  replace (length <? 8) with false by (symmetry; apply Z.ltb_ge; lia).
  cbv zeta. rewrite crc32b_loop_spec. cbn [c_crc c_input c_length].
  rewrite Z2Nat.id by lia. reflexivity.
Qed.

Lemma prologue_aligns_the_pointer_witness :
  8 <= 20
  /\ 0 <= Z.land (8 - Z.land 3 0x7) 0x7 <= 7
  /\ Z.land (3 + Z.land (8 - Z.land 3 0x7) 0x7) 0x7 = 0
  /\ crc32c_hw_compute all_detected (zeros 23) 3 20 0
     = match
         tiers all_detected (zeros 23)
           (mk_cursor
              (crc32c_bytes (zeros 23) 3
                 (Z.to_nat (Z.land (8 - Z.land 3 0x7) 0x7)) (not32 0))
              (3 + Z.land (8 - Z.land 3 0x7) 0x7)
              (20 - Z.land (8 - Z.land 3 0x7) 0x7))
       with
       | inl crc => crc
       | inr s => not32 (c_crc (crc32b_loop (zeros 23)
                                  (crc32q_loop (zeros 23) s)))
       end.
Proof.
  split; [lia | ].
  exact (prologue_aligns_the_pointer all_detected (zeros 23) 3 20 0
           ltac:(lia)).
Defined.

(** X7.  With CLMUL and SSE4.2 detected and AVX512 not, the three block
    loops of the dispatcher (3072, then 1024, then 256 bytes per kernel
    call) together consume the largest multiple of 256 bytes that fits,
    leave [length mod 256] bytes for the scalar loops at the advanced
    pointer, and chain the running value as byte-by-byte processing of
    the consumed bytes does. *)
Theorem sse42_tier_accounting g m s :
  detected_clmul g = true ->
  detected_avx512 g = false ->
  detected_sse42 g = true ->
  0 <= c_length s ->
  tiers g m s
  = inr (mk_cursor
           (crc32c_bytes m (c_input s)
              (Z.to_nat (256 * (c_length s / 256))) (c_crc s))
           (c_input s + 256 * (c_length s / 256))
           (c_length s mod 256)).
Proof.
  intros Hc Ha Hs HL. unfold tiers. rewrite Hc, Ha, Hs. cbv zeta.
  assert (B : forall step Nn N,
             (0 < Nn)%nat -> N = Z.of_nat Nn ->
             (forall i c, step m i c = crc32c_bytes m i Nn c) ->
             forall t,
               kernel_loop step N m t
               = mk_cursor
                   (crc32c_bytes m (c_input t)
                      (Z.to_nat (c_length t / N) * Nn) (c_crc t))
                   (c_input t + N * Z.of_nat (Z.to_nat (c_length t / N)))
                   (c_length t - N * Z.of_nat (Z.to_nat (c_length t / N)))).
  { intros step Nn N Hn -> Hstep t. now apply block_loop_spec. }
  rewrite (B _ 3072%nat 3072 ltac:(lia) eq_refl (clmul_3072_sequential m) s).
  set (k3 := Z.to_nat (c_length s / 3072)).
  rewrite (B _ 1024%nat 1024 ltac:(lia) eq_refl (clmul_1024_sequential m)).
  cbn [c_crc c_input c_length].
  set (k1 := Z.to_nat ((c_length s - 3072 * Z.of_nat k3) / 1024)).
  rewrite (B _ 256%nat 256 ltac:(lia) eq_refl (clmul_256_sequential m)).
  cbn [c_crc c_input c_length].
  set (k2 := Z.to_nat ((c_length s - 3072 * Z.of_nat k3
                        - 1024 * Z.of_nat k1) / 256)).
  clear B.
  set (L := c_length s) in *.
  assert (E3 : Z.of_nat k3 = L / 3072).
  { unfold k3. rewrite Z2Nat.id; [reflexivity | ].
    apply Z.div_pos; lia. }
  assert (E1 : Z.of_nat k1 = (L - 3072 * (L / 3072)) / 1024).
  { unfold k1. rewrite E3. rewrite Z2Nat.id; [reflexivity | ].
    apply Z.div_pos; [ | lia].
    pose proof (Z.mul_div_le L 3072 ltac:(lia)). lia. }
  assert (E2 : Z.of_nat k2
               = (L - 3072 * (L / 3072)
                  - 1024 * ((L - 3072 * (L / 3072)) / 1024)) / 256).
  { unfold k2. rewrite E1, E3. rewrite Z2Nat.id; [reflexivity | ].
    apply Z.div_pos; [ | lia].
    pose proof (Z.mul_div_le (L - 3072 * (L / 3072)) 1024 ltac:(lia)). lia. }
  clearbody k1 k2 k3.
  assert (Et : 3072 * Z.of_nat k3 + 1024 * Z.of_nat k1 + 256 * Z.of_nat k2
               = 256 * (L / 256)
               /\ L - 3072 * Z.of_nat k3 - 1024 * Z.of_nat k1
                  - 256 * Z.of_nat k2 = L mod 256).
  { rewrite E2, E1, E3. Z.div_mod_to_equations. lia. }
  destruct Et as [Et Em].
  rewrite (crc32c_bytes_merge m (c_input s) _ (k3 * 3072) (k1 * 1024))
    by lia.
  rewrite (crc32c_bytes_merge m (c_input s) _ (k3 * 3072 + k1 * 1024)
             (k2 * 256)) by lia.
  f_equal. f_equal; [f_equal; lia | lia | lia].
Qed.

Lemma sse42_tier_accounting_witness :
  detected_clmul (mk_globals true true true false) = true
  /\ detected_avx512 (mk_globals true true true false) = false
  /\ detected_sse42 (mk_globals true true true false) = true
  /\ 0 <= c_length (mk_cursor 5 0 5000)
  /\ tiers (mk_globals true true true false) (zeros 5000)
       (mk_cursor 5 0 5000)
     = inr (mk_cursor
              (crc32c_bytes (zeros 5000) (c_input (mk_cursor 5 0 5000))
                 (Z.to_nat (256 * (c_length (mk_cursor 5 0 5000) / 256)))
                 (c_crc (mk_cursor 5 0 5000)))
              (c_input (mk_cursor 5 0 5000)
               + 256 * (c_length (mk_cursor 5 0 5000) / 256))
              (c_length (mk_cursor 5 0 5000) mod 256)).
Proof.
  split; [reflexivity | ]. split; [reflexivity | ].
  split; [reflexivity | ]. split; [simpl; lia | ].
  apply (sse42_tier_accounting (mk_globals true true true false)
           (zeros 5000) (mk_cursor 5 0 5000));
    [reflexivity | reflexivity | reflexivity | simpl; lia].
Defined.

(** X8.  The constants of the [FOLD_K1K2] macro: on 32-bit stripe values
    the macro with the pair of each kernel multiplies crc0 and crc1 by
    the powers of x that move them over the bytes that follow their
    stripes (168 and 80 bytes in the 256-byte kernel, 680 and 344 in the
    1024-byte kernel, 2048 and 1024 in the 3072-byte kernel) and XORs
    the two products with crc2. *)
Theorem fold_constants_shift c0 c1 c2 :
  u32 c0 -> u32 c1 -> u32 c2 ->
  FOLD_K1K2 0x1b3d8f29 0x39d3b296 c0 c1 c2
  = Z.lxor (crc_shift (168 * 8) c0) (Z.lxor (crc_shift (80 * 8) c1) c2)
  /\ FOLD_K1K2 0xe417f38a 0x8f158014 c0 c1 c2
     = Z.lxor (crc_shift (680 * 8) c0) (Z.lxor (crc_shift (344 * 8) c1) c2)
  /\ FOLD_K1K2 0xa51b6135 0x170076fa c0 c1 c2
     = Z.lxor (crc_shift (2048 * 8) c0)
         (Z.lxor (crc_shift (1024 * 8) c1) c2).
Proof.
  intros H0 H1 H2.
  assert (G : forall K1 K2 n1 n2,
             fold_basis_ok K1 n1 = true -> fold_basis_ok K2 n2 = true ->
             FOLD_K1K2 K1 K2 c0 c1 c2
             = Z.lxor (crc_shift n1 c0) (Z.lxor (crc_shift n2 c1) c2)).
  { intros K1 K2 n1 n2 B1 B2. rewrite FOLD_K1K2_eq.
    rewrite (fold_half_shift K1 n1 B1 c0 H0).
    rewrite (fold_half_shift K2 n2 B2 c1 H1).
    pose proof (crc_shift_u32 n1 c0) as U0.
    pose proof (crc_shift_u32 n2 c1) as U1.
    rewrite (land_mask32_id (Z.lxor c2 (crc_shift n1 c0)))
      by (apply lxor_u32; assumption).
    rewrite land_mask32_id
      by (apply lxor_u32; [assumption | apply lxor_u32; assumption]).
    rewrite (Z.lxor_comm c2), <- Z.lxor_assoc.
    rewrite (Z.lxor_comm (crc_shift n2 c1)), Z.lxor_assoc.
    reflexivity. }
  split; [ | split].
  - exact (G _ _ _ _ fold_256_K1 fold_256_K2).
  - exact (G _ _ _ _ fold_1024_K1 fold_1024_K2).
  - exact (G _ _ _ _ fold_3072_K1 fold_3072_K2).
Qed.

Lemma fold_constants_shift_witness :
  u32 1 /\ u32 2 /\ u32 3
  /\ FOLD_K1K2 0x1b3d8f29 0x39d3b296 1 2 3
     = Z.lxor (crc_shift (168 * 8) 1) (Z.lxor (crc_shift (80 * 8) 2) 3)
  /\ FOLD_K1K2 0xe417f38a 0x8f158014 1 2 3
     = Z.lxor (crc_shift (680 * 8) 1) (Z.lxor (crc_shift (344 * 8) 2) 3)
  /\ FOLD_K1K2 0xa51b6135 0x170076fa 1 2 3
     = Z.lxor (crc_shift (2048 * 8) 1)
         (Z.lxor (crc_shift (1024 * 8) 2) 3).
Proof.
  assert (U : forall x, 0 <= x < 4 -> u32 x) by (unfold u32; lia).
  split; [apply U; lia | ]. split; [apply U; lia | ].
  split; [apply U; lia | ].
  exact (fold_constants_shift 1 2 3 (U 1 ltac:(lia)) (U 2 ltac:(lia))
           (U 3 ltac:(lia))).
Defined.

(** X9.  The last two stages of [crc32c_avx512]: the reduction from 128
    to 32 bits applied to sixteen bytes loaded from memory returns their
    CRC from a zero running value, and the fold from 512 to 128 bits
    followed by that reduction, applied to 64 loaded bytes, returns the
    CRC of the 64 bytes from zero. *)
Theorem reduction_is_crc_of_loaded_bytes m a :
  reduce_128_to_32 (_mm_load_si128 k5k6) (load128 m a)
  = crc32c_bytes m a 16 0
  /\ reduce_128_to_32 (_mm_load_si128 k5k6)
       (fold_512_to_128 (_mm_load_si128 k5k6) (_mm512_loadu_si512 m a))
     = crc32c_bytes m a 64 0.
Proof.
  split.
  - rewrite <- (load128_mask m a) at 1.
    rewrite (reduce_lane_crc (load128 m a)). apply lane_crc_load.
  - rewrite reduce_fold_512_to_128. apply vec_crc_load.
Qed.

(** X10.  The counted loops of the 1024-byte and 3072-byte kernels
    ([movl $5, %r8d] and [movl $16, %r8d], then [sub $1, %r8d; jnz])
    run their body exactly 5 and 16 times, leave the loop with the
    counter at zero and have then advanced the input register by 320 and
    by 1024 bytes. *)
Theorem kernel_loops_counted m input crc :
  let s5 := loop_jnz 5 (loop_1024_body m) (mk_stripe_regs input crc 0 0 5) in
  let s16 :=
    loop_jnz 16 (loop_3072_body m) (mk_stripe_regs input crc 0 0 16) in
  (s5 = Nat.iter 5 (loop_1024_body m) (mk_stripe_regs input crc 0 0 5)
   /\ reg_r8d s5 = 0 /\ reg_in s5 = input + 320)
  /\ (s16 = Nat.iter 16 (loop_3072_body m) (mk_stripe_regs input crc 0 0 16)
      /\ reg_r8d s16 = 0 /\ reg_in s16 = input + 1024).
Proof.
  cbv zeta. split.
  - destruct (loop_jnz_iter (loop_1024_body m)
                (fun s => f_equal reg_r8d (loop_1024_body_spec m s))
                5 (mk_stripe_regs input crc 0 0 5)
                ltac:(lia) ltac:(simpl; lia) eq_refl) as [E Z0].
    destruct (striped_loop m (loop_1024_body m) 0 344 680
                (loop_1024_body_spec m) 5 input crc
                ltac:(lia) ltac:(simpl; lia)) as (Hin & _).
    split; [exact E | ]. split; [exact Z0 | ].
    change (Z.of_nat 5) with 5 in Hin. rewrite Hin. lia.
  - destruct (loop_jnz_iter (loop_3072_body m)
                (fun s => f_equal reg_r8d (loop_3072_body_spec m s))
                16 (mk_stripe_regs input crc 0 0 16)
                ltac:(lia) ltac:(simpl; lia) eq_refl) as [E Z0].
    destruct (striped_loop m (loop_3072_body m) 0 1024 2048
                (loop_3072_body_spec m) 16 input crc
                ltac:(lia) ltac:(simpl; lia)) as (Hin & _).
    split; [exact E | ]. split; [exact Z0 | ].
    change (Z.of_nat 16) with 16 in Hin. rewrite Hin. lia.
Qed.

(** X11.  What a call returns when the wide-vector kernel leaves a
    residue of 1 to 63 bytes: the software CRC32C of the residue, seeded
    with the complement of the software CRC32C of the bytes before it. *)
Theorem wide_vector_residue_result g m input length previousCrc32 :
  wide_vector_residue g input length = true ->
  let res := (length - leading_bytes input) mod 64 in
  crc32c_hw_compute g m input length previousCrc32
  = aws_checksums_crc32c_sw m (input + (length - res)) res
      (not32 (aws_checksums_crc32c_sw m input (length - res) previousCrc32)).
Proof.
  intros H. unfold wide_vector_residue in H.
  apply andb_prop in H. destruct H as [Ht Hr].
  rewrite (crc32c_hw_compute_wide_vector g m input length _ Ht).
  cbv zeta. rewrite !aws_checksums_crc32c_sw_eq.
  apply negb_true_iff in Hr. rewrite Hr.
  rewrite (not32_involutive (not32 _)) by apply not32_u32.
  reflexivity.
Qed.

Lemma wide_vector_residue_result_witness :
  wide_vector_residue all_detected 0 257 = true
  /\ crc32c_hw_compute all_detected (zeros 257) 0 257 0
     = aws_checksums_crc32c_sw (zeros 257)
         (0 + (257 - (257 - leading_bytes 0) mod 64))
         ((257 - leading_bytes 0) mod 64)
         (not32 (aws_checksums_crc32c_sw (zeros 257) 0
                   (257 - (257 - leading_bytes 0) mod 64) 0)).
Proof.
  split; [reflexivity | ].
  exact (wide_vector_residue_result all_detected (zeros 257) 0 257 0
           eq_refl).
Defined.

(** X12.  A call with a length of zero or below returns the seed
    unchanged, for every pointer, memory and flag state: both loops of
    the short-input branch are guarded by [length-- > 0]. *)
Theorem nonpositive_length_returns_seed probe g m input length seed :
  length <= 0 -> u32 seed ->
  fst (aws_checksums_crc32c_hw probe g m input length seed) = seed.
Proof.
  intros Hl Hs. unfold aws_checksums_crc32c_hw, crc32c_hw_compute.
  cbn [fst].
  replace (length <? 8) with true by (symmetry; apply Z.ltb_lt; lia).
  cbv zeta. rewrite crc32b_loop_spec. cbn [c_crc c_input c_length].
  replace (Z.to_nat length) with 0%nat by lia.
  cbn [crc32c_bytes]. now apply not32_involutive.
Qed.

Lemma nonpositive_length_returns_seed_witness :
  -5 <= 0 /\ u32 0xDEADBEEF
  /\ fst (aws_checksums_crc32c_hw probe_all initial_globals [x01; x02] 0
            (-5) 0xDEADBEEF) = 0xDEADBEEF.
Proof.
  assert (U : u32 0xDEADBEEF) by (unfold u32; lia).
  split; [lia | ]. split; [exact U | ].
  exact (nonpositive_length_returns_seed probe_all initial_globals
           [x01; x02] 0 (-5) 0xDEADBEEF ltac:(lia) U).
Defined.

(** X13.  The two scalar loops that end every call (quad words with
    [CRC32Q] while at least 8 bytes are left, then single bytes with
    [CRC32B]) process exactly the [length] bytes they are given, in
    order, and leave the pointer at the end of the buffer. *)
Theorem scalar_loops_sequential m crc input length :
  0 <= length ->
  let s := crc32b_loop m (crc32q_loop m (mk_cursor crc input length)) in
  c_crc s = crc32c_bytes m input (Z.to_nat length) crc
  /\ c_input s = input + length.
Proof.
  intros Hl. cbv zeta. split; [now apply scalar_drain | ].
  rewrite crc32b_loop_spec. cbn [c_input].
  rewrite crc32q_loop_spec. cbv zeta. cbn [c_crc c_input c_length].
  assert (Hk : 0 <= length / 8) by (apply Z.div_pos; lia).
  pose proof (Z.mul_div_le length 8 ltac:(lia)).
  rewrite !Z2Nat.id; lia.
Qed.

Lemma scalar_loops_sequential_witness :
  0 <= 19
  /\ c_crc (crc32b_loop (zeros 19)
              (crc32q_loop (zeros 19) (mk_cursor 5 0 19)))
     = crc32c_bytes (zeros 19) 0 (Z.to_nat 19) 5
  /\ c_input (crc32b_loop (zeros 19)
                (crc32q_loop (zeros 19) (mk_cursor 5 0 19)))
     = 0 + 19.
Proof.
  split; [lia | ].
  exact (scalar_loops_sequential (zeros 19) 5 0 19 ltac:(lia)).
Defined.

(** X14.  The capability flags enter the result only through the
    conjunction of CLMUL and AVX512: two flag states with the same
    conjunction give the same result on every input, so the SSE4.2 flag
    never changes a result and the CLMUL flag alone does not either. *)
Theorem flags_matter_only_through_avx512 g g' m input length previousCrc32 :
  detected_clmul g && detected_avx512 g
  = detected_clmul g' && detected_avx512 g' ->
  crc32c_hw_compute g m input length previousCrc32
  = crc32c_hw_compute g' m input length previousCrc32.
Proof.
  intros H.
  pose proof (tier_taken_flags g g' input length H) as E.
  destruct (avx512_tier_taken g input length) eqn:Ht.
  - rewrite (crc32c_hw_compute_wide_vector g m input length _ Ht).
    rewrite (crc32c_hw_compute_wide_vector g' m input length _
               (eq_sym E)).
    reflexivity.
  - rewrite (crc32c_hw_compute_sequential g m input length _ Ht).
    rewrite (crc32c_hw_compute_sequential g' m input length _ (eq_sym E)).
    reflexivity.
Qed.

Lemma flags_matter_only_through_avx512_witness :
  detected_clmul (mk_globals true true true false)
  && detected_avx512 (mk_globals true true true false)
  = detected_clmul (mk_globals true false false true)
    && detected_avx512 (mk_globals true false false true)
  /\ crc32c_hw_compute (mk_globals true true true false) (zeros 4000)
       0 4000 0
     = crc32c_hw_compute (mk_globals true false false true) (zeros 4000)
         0 4000 0.
Proof.
  split; [reflexivity | ].
  exact (flags_matter_only_through_avx512 (mk_globals true true true false)
           (mk_globals true false false true) (zeros 4000) 0 4000 0
           eq_refl).
Defined.
